(** * LDAR-Sim: the orbit (satellite) deployment method

    A shallow embedding of [methods/deployment/orbit_crew.py] and
    [methods/deployment/orbit_company.py], and the properties of the
    daily satellite schedule proved on it.

    Layout: the Python and numpy primitives the two files use, the
    interface of the libraries they call, the data model, the methods of
    the two [Schedule] classes, then the lemmas and theorems. *)

From Stdlib Require Import List ZArith QArith Qround Qabs String Ascii Bool Arith Lia Permutation.
Import ListNotations.

Local Open Scope Z_scope.

#[local] Abbreviation length := Datatypes.length.

(* ------------------------------------------------------------------ *)
(** ** Python: exceptions and results *)

Module Py.

(** The exception classes that can surface from the modelled code. *)
Inductive exc_class : Type :=
| IndexError
| ValueError
| OverflowError
| FileNotFoundError
| LibraryError.

(** A raised exception: its class and its message. *)
Record exception : Type := Exc { exc_cls : exc_class; exc_msg : string }.

Inductive result (A : Type) : Type :=
| Ok (a : A)
| Raise (e : exception).
Arguments Ok {A} a.
Arguments Raise {A} e.

(** [l[i]] on a Python list with a non-negative index. *)
Definition list_index_out_of_range : exception :=
  Exc IndexError "list index out of range"%string.

Definition getitem {A : Type} (l : list A) (i : nat) : result A :=
  match nth_error l i with
  | Some a => Ok a
  | None => Raise list_index_out_of_range
  end.

(** A [str] is held as the sequence of its code points, each below
    256. [c.isspace()] holds of twelve of them: the control characters
    9 to 13 and 28 to 31, the space, the next-line character U+0085 and
    the no-break space U+00A0. *)
Definition is_whitespace (c : ascii) : bool :=
  let n := nat_of_ascii c in
  ((9 <=? n) && (n <=? 13) || (28 <=? n) && (n <=? 32)
   || (n =? 133) || (n =? 160))%nat.

(** [str.rstrip()] with no argument strips the trailing white space. *)

Fixpoint rstrip (s : string) : string :=
  match s with
  | EmptyString => EmptyString
  | String c s' =>
      match rstrip s' with
      | EmptyString => if is_whitespace c then EmptyString else String c EmptyString
      | r => String c r
      end
  end.

(** [round(x)] with one argument, on the exact value of [x]: to the
    nearest integer, ties to the even one. *)
Definition round (x : Q) : Z :=
  let f := Qfloor x in
  match Qcompare (x - inject_Z f) (1 # 2) with
  | Lt => f
  | Gt => f + 1
  | Eq => if Z.even f then f else f + 1
  end.

(** *** Floats

    A Python [float] is an IEEE 754 double: a finite one is held as the
    rational it denotes, and an operation on finite doubles returns the
    double nearest to the exact result, ties to the even significand,
    or an infinity when that double would be [2^1024] or more. *)
Inductive pyfloat : Type :=
| Finite (q : Q)
| Infinity (negative : bool).

Definition pow2 (e : Z) : Q :=
  if 0 <=? e then inject_Z (2 ^ e) else 1 # Z.to_pos (2 ^ (- e)).

(** The power of two at or below [|x|], for [x] other than 0:
    the estimate from the sizes of numerator and denominator is that
    power or the one above it. *)
Definition binade (x : Q) : Z :=
  let e0 := Z.log2 (Z.abs (Qnum x)) - Z.log2 (Zpos (Qden x)) in
  if Qle_bool (pow2 e0) (Qabs x) then e0 else e0 - 1.

(** The exponent of the last of the 53 bits of the significand; below
    [2^-1022] the doubles are evenly spaced. *)
Definition quantum (x : Q) : Z := Z.max (binade x) (-1022) - 52.

(** The double nearest to [x]. *)
Definition to_double (x : Q) : pyfloat :=
  if Qeq_bool x 0 then Finite 0
  else
    let q := quantum x in
    let m := round (x / pow2 q) in
    let y := Qred (inject_Z m * pow2 q) in
    if Qle_bool (pow2 1024) (Qabs y) then Infinity (Qnum x <? 0) else Finite y.

(** [x * y] on floats. *)
Definition float_mul (x y : Q) : pyfloat := to_double (Qred (x * y)).

Definition cannot_convert_infinity : exception :=
  Exc OverflowError "cannot convert float infinity to integer"%string.

(** [round(f)] on a float. *)
Definition round_float (f : pyfloat) : result Z :=
  match f with
  | Finite q => Ok (round q)
  | Infinity _ => Raise cannot_convert_infinity
  end.

(** The end of the slice [a[:stop]] on a sequence of length [n]. *)
Definition slice_stop (n : nat) (stop : Z) : nat :=
  if stop <? 0 then Z.to_nat (Z.max 0 (Z.of_nat n + stop))
  else Nat.min n (Z.to_nat stop).

End Py.
Export Py.

(* ------------------------------------------------------------------ *)
(** ** datetime *)

Module Datetime.

(** A [datetime.datetime]: the proleptic Gregorian ordinal of its
    date, and its time of day. *)
Record datetime : Type := mkDatetime {
  ordinal : Z;
  hour : Z;
  minute : Z;
  second : Z;
  microsecond : Z
}.

(** [d.date()] *)
Definition date (d : datetime) : Z := ordinal d.

Definition hour_must_be_in_range : exception :=
  Exc ValueError "hour must be in 0..23"%string.

(** [d.replace(hour=h)] *)
Definition replace_hour (d : datetime) (h : Z) : result datetime :=
  if (0 <=? h) && (h <=? 23)
  then Ok (mkDatetime (ordinal d) h (minute d) (second d) (microsecond d))
  else Raise hour_must_be_in_range.

Definition min_ordinal : Z := 1.
Definition max_ordinal : Z := 3652059.

Definition date_value_out_of_range : exception :=
  Exc OverflowError "date value out of range"%string.

(** [d + timedelta(minutes=m)] *)
Definition add_minutes (d : datetime) (m : Z) : result datetime :=
  let total := hour d * 60 + minute d + m in
  let o := ordinal d + total / 1440 in
  if (min_ordinal <=? o) && (o <=? max_ordinal)
  then Ok (mkDatetime o ((total mod 1440) / 60) (total mod 60)
                      (second d) (microsecond d))
  else Raise date_value_out_of_range.

End Datetime.
Export Datetime.

(* ------------------------------------------------------------------ *)
(** ** numpy.random: the global random state *)

Module NumpyRandom.

(** The generator, as far as the bounded draws it delivers go.
    [random_interval] masks raw outputs of the Mersenne Twister and
    rejects those above the bound, so one bounded draw takes one or more
    raw outputs; how many is not modelled. [draws k] is what decides
    the [k]-th bounded draw made on this state, and [pos] counts the
    bounded draws made so far: every run of numpy is the run of this
    model on some [draws]. *)
Record RandomState : Type := mkRandomState {
  draws : nat -> nat;
  pos : nat
}.

(** [random_interval(state, max)]: the next bounded draw, an integer
    in [0, max]; any value of that range is the outcome for some
    [draws]. *)
Definition random_interval (rs : RandomState) (max : nat) : nat * RandomState :=
  ((draws rs (pos rs) mod S max)%nat, mkRandomState (draws rs) (S (pos rs))).

Fixpoint set_item (i : nat) (v : Z) (l : list Z) : list Z :=
  match l, i with
  | [], _ => []
  | _ :: t, O => v :: t
  | x :: t, S i' => x :: set_item i' v t
  end.

(** Exchange of the entries at [i] and [j]. *)
Definition swap (i j : nat) (l : list Z) : list Z :=
  let xi := nth i l 0 in
  let xj := nth j l 0 in
  set_item i xj (set_item j xi l).

(** The loop of [shuffle] on a one-dimensional array:
    [for i in reversed(range(1, n)): j = random_interval(i); swap i j]. *)
Fixpoint shuffle_loop (i : nat) (arr : list Z) (rs : RandomState)
  : list Z * RandomState :=
  match i with
  | O => (arr, rs)
  | S i' =>
      let (j, rs') := random_interval rs i in
      shuffle_loop i' (swap i j arr) rs'
  end.

(** [np.random.shuffle(arr)] *)
Definition shuffle (arr : list Z) (rs : RandomState) : list Z * RandomState :=
  shuffle_loop (length arr - 1) arr rs.

Definition a_must_be_non_empty : exception :=
  Exc ValueError "'a' cannot be empty unless no samples are taken"%string.

(** [np.random.choice(arr, 1)[0]]: one index drawn from
    [0, len(arr)), and the entry there. *)
Definition choice1 (arr : list Z) (rs : RandomState) : result Z * RandomState :=
  match arr with
  | [] => (Raise a_must_be_non_empty, rs)
  | _ :: _ =>
      let (idx, rs') := random_interval rs (length arr - 1) in
      (Ok (nth idx arr 0), rs')
  end.

(** [np.zeros(n)] followed by [arr[:stop] = 1]. *)
Definition zeros_with_ones (n : nat) (stop : Z) : list Z :=
  let k := slice_stop n stop in
  repeat 1 k ++ repeat 0 (n - k).

End NumpyRandom.
Export NumpyRandom.

(* ------------------------------------------------------------------ *)
(** ** The libraries and helpers the scheduler calls

    numpy's half-precision conversion, shapely's containment test, the
    orbit predictor, and the helpers of [utils.generic_functions] are
    not part of the two modelled files: they are taken as an interface.
    [coord] is the type of the floating point coordinates. *)

Class External : Type := {
  coord : Type;
  opaque : Type;
  polygon : Type;
  predictor : Type;
  (** [np.float16(x)] *)
  float16 : coord -> coord;
  (** [dp.contains(Point(x, y))] *)
  contains : polygon -> coord -> coord -> bool;
  (** [geo_idx(dd, dd_array)]: the index of the grid bucket nearest to [dd] *)
  geo_idx : coord -> list coord -> nat;
  (** [quick_cal_daylight(date, lat, lon)]: sunrise and sunset hours *)
  quick_cal_daylight : datetime -> coord -> coord -> Q * Q;
  (** [get_predictor_from_tle_lines((line1, line2))] *)
  get_predictor_from_tle_lines : string -> string -> result predictor;
  (** [init_orbit_poly(predictor, T1, T2, interval)] *)
  init_orbit_poly :
    predictor -> datetime -> datetime -> Z -> result (list datetime * list polygon)
}.

(* ------------------------------------------------------------------ *)
(** ** Data model *)

Section Model.

Context {E : External}.

(** A site record of the pool: its coordinates and whatever else the
    caller keeps in it. *)
Record site : Type := mkSite {
  lat : coord;
  lon : coord;
  site_data : opaque
}.

(** An entry of the daily itinerary, as built by [plan_visit]. *)
Record plan : Type := mkPlan {
  plan_site : site;
  go_to_site : bool;
  LDAR_mins : Z;
  remaining_mins : Z
}.

(** [state['t']] *)
Record TimeState : Type := mkTimeState {
  current_date : datetime;
  current_timestep : nat;
  start_date : datetime;
  end_date : datetime
}.

(** [state['weather']] *)
Record WeatherState : Type := mkWeatherState {
  latitude : list coord;
  longitude : list coord
}.

(** The simulation state dictionary shared with the scheduler. *)
Record SimState : Type := mkSimState {
  t : TimeState;
  weather : WeatherState
}.

Record Parameters : Type := mkParameters {
  input_directory : string;
  weather_file : string;
  consider_weather : bool
}.

Record Config : Type := mkConfig {
  TLE_label : string;
  TLE_file : string
}.

(** The cloud cover variable [tcc], indexed [time, latitude, longitude];
    its cells are floats, each held as the rational it denotes. *)
Definition grid : Type := list (list (list Q)).

(** The input files: text files as their raw lines, netCDF files as
    their [tcc] variable. *)
Record FileSystem : Type := mkFileSystem {
  text_file : string -> option (list string);
  netcdf_tcc : string -> option grid
}.

(** The attributes of a crew [Schedule] object. [worked_today] is not
    assigned by [__init__]: [None] is the attribute not being there. *)
Record Schedule : Type := mkSchedule {
  parameters : Parameters;
  config : Config;
  deployment_days : opaque;
  crew_lat : coord;
  crew_lon : coord;
  work_hours : Z;
  start_hour : Z;
  end_hour : Z;
  allowed_end_time : option Z;
  cloudcover : grid;
  sat : string;
  tlefile : string;
  sched_predictor : predictor;
  sat_datetime : list datetime;
  sat_date : list Z;
  orbit_path : list polygon;
  worked_today : option bool
}.

(** What a method call can read and change: the object, the shared
    simulation state, and numpy's global random state. *)
Record World : Type := mkWorld {
  self : Schedule;
  state : SimState;
  np_random : RandomState
}.

(** *** Methods run on the world and may raise; what was changed
    before an exception stays changed. *)

Definition M (A : Type) : Type := World -> result A * World.

Definition ret {A : Type} (a : A) : M A := fun w => (Ok a, w).

Definition bind {A B : Type} (m : M A) (k : A -> M B) : M B :=
  fun w =>
    match m w with
    | (Ok a, w') => k a w'
    | (Raise e, w') => (Raise e, w')
    end.

Definition lift {A : Type} (r : result A) : M A := fun w => (r, w).

Definition read {A : Type} (f : World -> A) : M A := fun w => (Ok (f w), w).

Definition modify (f : World -> World) : M unit := fun w => (Ok tt, f w).

(** Result of a run, and the world after it. *)
Definition outcome {A : Type} (m : M A) (w : World) : result A := fst (m w).
Definition world_after {A : Type} (m : M A) (w : World) : World := snd (m w).

End Model.

Declare Scope py_scope.
Delimit Scope py_scope with py.
Notation "x <- m ;; k" := (bind m (fun x => k))
  (at level 61, m at next level, right associativity) : py_scope.
Notation "m ;; k" := (bind m (fun _ => k))
  (at level 61, right associativity) : py_scope.
Notation "' pat <- m ;; k" := (bind m (fun x => match x with pat => k end))
  (at level 61, pat pattern, m at next level, right associativity) : py_scope.

(* ------------------------------------------------------------------ *)
(** ** orbit_crew.Schedule *)

Module OrbitCrew.
Section Methods.

Context {E : External}.
Local Open Scope py_scope.

(** *** Attribute updates *)

(** [self.state['t'].current_date = d] *)
Definition set_current_date (d : datetime) (w : World) : World :=
  let ts := t (state w) in
  mkWorld (self w)
    (mkSimState
       (mkTimeState d (current_timestep ts) (start_date ts) (end_date ts))
       (weather (state w)))
    (np_random w).

(** [self.worked_today = b] *)
Definition set_worked_today (b : bool) (w : World) : World :=
  let s := self w in
  mkWorld
    (mkSchedule (parameters s) (config s) (deployment_days s)
       (crew_lat s) (crew_lon s) (work_hours s) (start_hour s) (end_hour s)
       (allowed_end_time s) (cloudcover s) (sat s) (tlefile s)
       (sched_predictor s) (sat_datetime s) (sat_date s) (orbit_path s)
       (Some b))
    (state w) (np_random w).

Definition set_np_random (rs : RandomState) (w : World) : World :=
  mkWorld (self w) (state w) rs.

(** A call into [np.random]: it runs on the global random state. *)
Definition with_np_random {A : Type} (f : RandomState -> A * RandomState) : M A :=
  fun w => let (a, rs) := f (np_random w) in (Ok a, set_np_random rs w).

(** *** plan_visit *)

Definition plan_visit (s : site) : plan :=
  {| plan_site := s;
     go_to_site := true;
     LDAR_mins := 0;
     remaining_mins := 0 |}.

(** *** calc_viewable_sites *)

Definition boolean_index_mismatch : exception :=
  Exc IndexError "boolean index did not match indexed array"%string.

Fixpoint mask_select {A : Type} (a : list A) (mask : list bool) : list A :=
  match a, mask with
  | x :: a', b :: mask' =>
      if b then x :: mask_select a' mask' else mask_select a' mask'
  | _, _ => []
  end.

(** [a[mask]] with a boolean array [mask]: numpy checks the length of
    [mask] against that of [a], except for an empty [mask], which
    selects nothing from any [a]. *)
Definition getitem_mask {A : Type} (a : list A) (mask : list bool)
  : result (list A) :=
  if (length mask =? 0)%nat then Ok []
  else if (length a =? length mask)%nat then Ok (mask_select a mask)
  else Raise boolean_index_mismatch.

(** The inner loop: [for dp in DP: if dp.contains(PT): append; break].
    The result says whether the site was appended. *)
Fixpoint seen_on_path (DP : list polygon) (x y : coord) : bool :=
  match DP with
  | [] => false
  | dp :: DP' => if contains dp x y then true else seen_on_path DP' x y
  end.

(** The outer loop over the site pool, with the list it appends to. *)
Fixpoint viewable_loop (DP : list polygon) (site_pool valid_site : list site)
  : list site :=
  match site_pool with
  | [] => valid_site
  | s :: rest =>
      let fac_lat := float16 (lat s) in
      let fac_lon := float16 (lon s) in
      if seen_on_path DP fac_lon fac_lat
      then viewable_loop DP rest (valid_site ++ [s])
      else viewable_loop DP rest valid_site
  end.

Definition calc_viewable_sites (site_pool : list site) : M (list site) :=
  sat_date_ <- read (fun w => sat_date (self w)) ;;
  path <- read (fun w => orbit_path (self w)) ;;
  date_ <- read (fun w => date (current_date (t (state w)))) ;;
  DP <- lift (getitem_mask path (map (fun d => d =? date_) sat_date_)) ;;
  ret (viewable_loop DP site_pool []).

(** *** assess_weather *)

Definition index_out_of_bounds : exception :=
  Exc IndexError "index is out of bounds for axis"%string.

(** [cloudcover[ti, lat_idx, lon_idx]] *)
Definition grid_item (g : grid) (ti lat_idx lon_idx : nat) : result Q :=
  match nth_error g ti with
  | None => Raise index_out_of_bounds
  | Some plane =>
      match nth_error plane lat_idx with
      | None => Raise index_out_of_bounds
      | Some row =>
          match nth_error row lon_idx with
          | None => Raise index_out_of_bounds
          | Some v => Ok v
          end
      end
  end.

(** The cloud draw, from the rounded percentage on:
    [arr = np.zeros(100); arr[:CC] = 1; np.random.shuffle(arr);
     np.random.choice(arr, 1)[0] == 0]. *)
Definition cloud_draw (CC : Z) : M bool :=
  let arr := zeros_with_ones 100 CC in
  arr' <- with_np_random (shuffle arr) ;;
  r <- with_np_random (choice1 arr') ;;
  c <- lift r ;;
  ret (if c =? 0 then true else false).

Definition assess_weather (s : site) : M (bool * bool) :=
  let site_lat := float16 (lat s) in
  let site_lon := float16 (lon s) in
  lat_idx <- read (fun w => geo_idx site_lat (latitude (weather (state w)))) ;;
  lon_idx <- read (fun w => geo_idx site_lon (longitude (weather (state w)))) ;;
  ti <- read (fun w => current_timestep (t (state w))) ;;
  date_ <- read (fun w => current_date (t (state w))) ;;
  let (sr, ss) := quick_cal_daylight date_ site_lat site_lon in
  h <- read (fun w => hour (current_date (t (state w)))) ;;
  let sat_daylight := Qle_bool sr (inject_Z h) && Qle_bool (inject_Z h) ss in
  cloud <- read (fun w => cloudcover (self w)) ;;
  cell <- lift (grid_item cloud ti lat_idx lon_idx) ;;
  let CC := float_mul cell 100 in
  CC <- lift (round_float CC) ;;
  sat_cc <- cloud_draw CC ;;
  ret (sat_daylight, sat_cc).

(** *** start_day *)

(** The [for site in viewable_sites] loop, with the list of plans it
    appends to. *)
Fixpoint plan_loop (viewable_sites : list site) (daily_site_plans : list plan)
  : M (list plan) :=
  match viewable_sites with
  | [] => ret daily_site_plans
  | s :: rest =>
      '(sat_dl, sat_cc) <- assess_weather s ;;
      cw <- read (fun w => consider_weather (parameters (self w))) ;;
      if (sat_dl && sat_cc) || negb cw
      then plan_loop rest (daily_site_plans ++ [plan_visit s])
      else plan_loop rest daily_site_plans
  end.

Definition start_day (site_pool : list site) : M (list plan) :=
  d <- read (fun w => current_date (t (state w))) ;;
  d' <- lift (replace_hour d 1) ;;
  modify (set_current_date d') ;;
  viewable_sites <- calc_viewable_sites site_pool ;;
  if (length viewable_sites =? 0)%nat
  then modify (set_worked_today false) ;; ret []
  else plan_loop viewable_sites [].

(** *** update_schedule, end_day *)

Definition update_schedule (work_mins : Z) : M unit :=
  d <- read (fun w => current_date (t (state w))) ;;
  d' <- lift (add_minutes d work_mins) ;;
  modify (set_current_date d').

Definition end_day (site_pool : list site) (itinerary : list plan) : M unit :=
  ret tt.

(** *** __init__ and the two methods it calls *)

Definition path_join (dir name : string) : string :=
  (dir ++ "/" ++ name)%string.

Definition no_such_file : exception :=
  Exc FileNotFoundError "No such file or directory"%string.

(** The [for x in TLEs: if x == self.sat: break; i += 1] loop. *)
Fixpoint find_label (TLEs : list string) (sat_ : string) (i : nat) : nat :=
  match TLEs with
  | [] => i
  | x :: rest => if String.eqb x sat_ then i else find_label rest sat_ (S i)
  end.

(** The value [get_orbit_predictor] stores in [self.predictor]. *)
Definition get_orbit_predictor (fs : FileSystem) (input_dir tlefile_ sat_ : string)
  : result predictor :=
  match text_file fs (path_join input_dir tlefile_) with
  | None => Raise no_such_file
  | Some f =>
      let TLEs := map rstrip f in
      let i := find_label TLEs sat_ 0 in
      match getitem TLEs (i + 1) with
      | Raise e => Raise e
      | Ok line1 =>
          match getitem TLEs (i + 2) with
          | Raise e => Raise e
          | Ok line2 => get_predictor_from_tle_lines line1 line2
          end
      end
  end.

(** The values [get_orbit_path] stores in [self.sat_datetime],
    [self.sat_date] and [self.orbit_path]. *)
Definition get_orbit_path (p : predictor) (st : SimState)
  : result (list datetime * list Z * list polygon) :=
  let T1 := start_date (t st) in
  let T2 := end_date (t st) in
  match init_orbit_poly p T1 T2 15 with
  | Raise e => Raise e
  | Ok (sat_datetime_, orbit_path_) =>
      Ok (sat_datetime_, map date sat_datetime_, orbit_path_)
  end.

(** [Schedule(id, lat, lon, state, config, parameters, deployment_days)]:
    the constructed object, or the exception that ends the
    construction. *)
Definition init (fs : FileSystem) (id : nat) (lat_ lon_ : coord) (st : SimState)
    (config_ : Config) (parameters_ : Parameters) (deployment_days_ : opaque)
  : result Schedule :=
  let input_dir := input_directory parameters_ in
  match netcdf_tcc fs (path_join input_dir (weather_file parameters_)) with
  | None => Raise no_such_file
  | Some cloudcover_ =>
      let sat_ := TLE_label config_ in
      let tlefile_ := TLE_file config_ in
      match get_orbit_predictor fs input_dir tlefile_ sat_ with
      | Raise e => Raise e
      | Ok p =>
          match get_orbit_path p st with
          | Raise e => Raise e
          | Ok (sat_datetime_, sat_date_, orbit_path_) =>
              Ok (mkSchedule parameters_ config_ deployment_days_ lat_ lon_
                    24 0 23 None cloudcover_ sat_ tlefile_ p
                    sat_datetime_ sat_date_ orbit_path_ None)
          end
      end
  end.

End Methods.
End OrbitCrew.

(* ------------------------------------------------------------------ *)
(** ** orbit_company.Schedule *)

Module OrbitCompany.
Section Methods.

Context {E : External}.

Record Schedule : Type := mkSchedule {
  parameters : Parameters;
  config : Config;
  state : SimState
}.

Definition init (config_ : Config) (parameters_ : Parameters) (state_ : SimState)
  : Schedule :=
  mkSchedule parameters_ config_ state_.

Definition get_due_sites (self : Schedule) (site_pool : list site) : list site :=
  site_pool.

Definition assign_agents (self : Schedule) : unit := tt.

Definition get_working_crews (self : Schedule) (site_pool : list site)
    (n_crews : Z) : Z :=
  n_crews.

Definition get_crew_site_list {crew : Type} (self : Schedule)
    (site_pool : list site) (crew_num n_crews : Z) (crews : option (list crew))
  : list site :=
  site_pool.

End Methods.
End OrbitCompany.

(* ------------------------------------------------------------------ *)
(** ** Notions the properties are stated with *)

Import OrbitCrew.

Section Notions.

Context {E : External}.
Local Open Scope py_scope.

(** The polygons the ground track table records for a date: the
    entries of [orbit_path] whose entry of [sat_date], at the same
    index, is that date. *)
Definition polygons_on (s : Schedule) (today : Z) : list polygon :=
  map snd (filter (fun e => fst e =? today) (combine (sat_date s) (orbit_path s))).

(** A site's reduced coordinates lie in one of the listed polygons. *)
Definition covered_by (DP : list polygon) (s : site) : bool :=
  existsb (fun dp => contains dp (float16 (lon s)) (float16 (lat s))) DP.

(** The sites of the pool that today's polygons cover, in pool order. *)
Definition viewable_today (w : World) (site_pool : list site) : list site :=
  filter (covered_by (polygons_on (self w) (date (current_date (t (state w))))))
    site_pool.

(** The rounded percentage [assess_weather] computes from a cell:
    [round(cell * 100)], which raises when the product is infinite. *)
Definition cloud_percent (cell : Q) : result Z :=
  round_float (float_mul cell 100).

(** The percentage of a cell that has one. *)
Definition percent (cell : Q) : Z :=
  match cloud_percent cell with
  | Ok CC => CC
  | Raise _ => 0
  end.

(** The cloud fraction cell [assess_weather] reads for a site and turns
    into a percentage, or the exception it raises before it draws:
    that of the grid when it has no such cell, that of [round] when
    the cell times 100 is infinite. *)
Definition cloud_lookup (w : World) (s : site) : result Q :=
  match grid_item (cloudcover (self w)) (current_timestep (t (state w)))
          (geo_idx (float16 (lat s)) (latitude (weather (state w))))
          (geo_idx (float16 (lon s)) (longitude (weather (state w))))
  with
  | Ok cell =>
      match cloud_percent cell with
      | Ok _ => Ok cell
      | Raise e => Raise e
      end
  | Raise e => Raise e
  end.

(** [assess_weather] reports the site as obscured by cloud. *)
Definition reports_obstruction (s : site) (w : World) : bool :=
  match outcome (assess_weather s) w with
  | Ok (_, false) => true
  | _ => false
  end.

(** The random state whose draw [k] places after the cursor is decided
    by [v]. *)
Definition with_draw (rs : RandomState) (k v : nat) : RandomState :=
  mkRandomState (fun n => if (n =? pos rs + k)%nat then v else draws rs n) (pos rs).

(** The shuffle of a 100-entry array takes 99 draws; the next one is
    the draw of [choice]. *)
Definition choice_draw : nat := 99.

(** With the draws of the shuffle as they are in [rs], the share of
    the 100 equally likely values of the choice draw on which
    [assess_weather] reports obstruction. *)
Definition obstruction_probability (s : site) (w : World) (rs : RandomState) : Q :=
  Z.of_nat
    (length
       (filter
          (fun v => reports_obstruction s (set_np_random (with_draw rs choice_draw v) w))
          (seq 0 100)))
  # 100.

(** A finite distribution: weighted outcomes. *)
Definition total_weight {A : Type} (dist : list (Q * A)) : Q :=
  fold_right (fun e acc => fst e + acc)%Q 0%Q dist.

Definition expectation {A : Type} (dist : list (Q * A)) (f : A -> Q) : Q :=
  fold_right (fun e acc => fst e * f (snd e) + acc)%Q 0%Q dist.

(** The probability of obstruction when the draws of the shuffle
    follow [dist] and the choice draw is uniform and independent. *)
Definition marginal_obstruction_probability
    (s : site) (w : World) (dist : list (Q * RandomState)) : Q :=
  expectation dist (obstruction_probability s w).

(** One call of [f] per element, in order. *)
Fixpoint for_each {A B : Type} (f : A -> M B) (l : list A) : M unit :=
  match l with
  | [] => ret tt
  | x :: rest => f x ;; for_each f rest
  end.

(** The clock as [start_day] leaves it before it filters the pool. *)
Definition day_started (w : World) : World :=
  world_after
    (d <- read (fun w => current_date (t (state w))) ;;
     d' <- lift (replace_hour d 1) ;;
     modify (set_current_date d')) w.

(** The operations of a crew schedule. *)
Inductive operation : Type :=
| StartDay (site_pool : list site)
| PlanVisit (s : site)
| CalcViewableSites (site_pool : list site)
| AssessWeather (s : site)
| UpdateSchedule (work_mins : Z)
| EndDay (site_pool : list site) (itinerary : list plan).

Definition run (op : operation) : M unit :=
  match op with
  | StartDay site_pool => start_day site_pool ;; ret tt
  | PlanVisit s => let _ := plan_visit s in ret tt
  | CalcViewableSites site_pool => calc_viewable_sites site_pool ;; ret tt
  | AssessWeather s => assess_weather s ;; ret tt
  | UpdateSchedule work_mins => update_schedule work_mins
  | EndDay site_pool itinerary => end_day site_pool itinerary
  end.

(** The number of entries of an indicator array different from 0. *)
Definition ones (l : list Z) : nat :=
  length (filter (fun c => negb (c =? 0)) l).

(** The random state [n] draws later. *)
Definition advance (rs : RandomState) (n : nat) : RandomState :=
  mkRandomState (draws rs) (pos rs + n).

(** The entry [cloud_draw] ends up reading from the random state
    [rs]: the shuffle of the indicator array takes 99 draws, the
    choice of the index takes the next one. *)
Definition cloud_entry (CC : Z) (rs : RandomState) : Z :=
  nth (draws rs (pos rs + choice_draw) mod 100)%nat
      (fst (shuffle (zeros_with_ones 100 CC) rs)) 0.

(** The daylight signal of [assess_weather]. *)
Definition daylight (w : World) (s : site) : bool :=
  let d := current_date (t (state w)) in
  let (sr, ss) := quick_cal_daylight d (float16 (lat s)) (float16 (lon s)) in
  Qle_bool sr (inject_Z (hour d)) && Qle_bool (inject_Z (hour d)) ss.

(** Stated from the specification: the error the catalog lookup is
    said to fail with when the identifier is unknown. *)
Definition identifier_not_found_error (e : exception) : Prop :=
  exc_msg e = "identifier not found"%string \/
  exc_msg e = "unknown satellite"%string.

End Notions.

(* ------------------------------------------------------------------ *)
(** ** A small concrete scenario

    Coordinates in whole degrees, rectangular footprints, a one-cell
    weather grid, and a two-entry ground track table. *)

Module Scenario.

Record box : Type := mkBox { x_min : Z; x_max : Z; y_min : Z; y_max : Z }.

Definition box_contains (b : box) (x y : Z) : bool :=
  (x_min b <? x) && (x <? x_max b) && (y_min b <? y) && (y <? y_max b).

(** Index of the entry nearest to [dd], the first one on ties. *)
Fixpoint nearest (dd : Z) (arr : list Z) (i best : nat) (best_d : Z) : nat :=
  match arr with
  | [] => best
  | a :: rest =>
      if Z.abs (a - dd) <? best_d
      then nearest dd rest (S i) i (Z.abs (a - dd))
      else nearest dd rest (S i) best best_d
  end.

Definition nearest_idx (dd : Z) (arr : list Z) : nat :=
  match arr with
  | [] => O
  | a :: rest => nearest dd rest 1%nat O (Z.abs (a - dd))
  end.

Definition footprint : box := mkBox (-120) (-110) 50 60.

#[export] Instance external : External := {|
  coord := Z;
  opaque := string;
  polygon := box;
  predictor := string * string;
  float16 := fun x => x;
  contains := box_contains;
  geo_idx := nearest_idx;
  quick_cal_daylight := fun _ _ _ => (6 # 1, 18 # 1);
  get_predictor_from_tle_lines := fun l1 l2 => Ok (l1, l2);
  init_orbit_poly := fun _ T1 T2 _ => Ok ([T1; T2], [footprint; footprint])
|}.

Definition site_A : site := mkSite 55 (-115) "A"%string.
Definition site_B : site := mkSite 10 10 "B"%string.

Definition day (o : Z) : datetime := mkDatetime o 0 0 0 0.

Definition sim_state (cur : Z) : SimState :=
  mkSimState (mkTimeState (day cur) 0 (day 738000) (day 738001))
             (mkWeatherState [55] [-115]).

Definition catalog : list string :=
  [String.append "GHGSAT-D"%string (String "010"%char EmptyString);
   String.append "1 41602U 16040D"%string (String "010"%char EmptyString);
   String.append "2 41602  97.2"%string (String "010"%char EmptyString)].

(** The catalog cut after the first element line. *)
Definition short_catalog : list string := firstn 2 catalog.

Definition files (fraction : Q) : FileSystem :=
  mkFileSystem
    (fun p => if String.eqb p "inputs/tle.txt"%string then Some catalog
              else if String.eqb p "inputs/short.txt"%string then Some short_catalog
              else None)
    (fun p => if String.eqb p "inputs/era5.nc"%string then Some [[[fraction]]] else None).

Definition params (cw : bool) : Parameters := mkParameters "inputs"%string "era5.nc"%string cw.

Definition conf : Config := mkConfig "GHGSAT-D"%string "tle.txt"%string.

Definition rng : RandomState := mkRandomState (fun n => (7 * n + 3)%nat) 0.

(** The schedule [__init__] builds from these inputs. *)
Definition schedule (fraction : Q) (cw : bool) : result Schedule :=
  init (files fraction) 1 0 0 (sim_state 738000) conf (params cw) ""%string.

Definition world (fraction : Q) (cw : bool) (cur : Z) : result World :=
  match schedule fraction cw with
  | Ok s => Ok (mkWorld s (sim_state cur) rng)
  | Raise e => Raise e
  end.

(** The same worlds, written out. *)
Definition the_schedule (fraction : Q) (cw : bool) : Schedule :=
  mkSchedule (params cw) conf ""%string 0 0 24 0 23 None [[[fraction]]]
    "GHGSAT-D"%string "tle.txt"%string ("1 41602U 16040D"%string, "2 41602  97.2"%string)
    [day 738000; day 738001] [738000; 738001] [footprint; footprint] None.

Definition the_world (fraction : Q) (cw : bool) (cur : Z) : World :=
  mkWorld (the_schedule fraction cw) (sim_state cur) rng.

End Scenario.

(* ------------------------------------------------------------------ *)
(** ** Further notions: the day as a whole, the clock, the catalog *)

Section DayNotions.

Context {E : External}.

(** [l1] is [l2] with some entries left out, the order kept. *)
Inductive subseq {A : Type} : list A -> list A -> Prop :=
| subseq_nil : subseq [] []
| subseq_skip (x : A) (l1 l2 : list A) : subseq l1 l2 -> subseq l1 (x :: l2)
| subseq_keep (x : A) (l1 l2 : list A) : subseq l1 l2 -> subseq (x :: l1) (x :: l2).

(** The test [start_day] makes on the signals of a site, when the
    random state is [rs] at the call of [assess_weather]. *)
Definition eligible (w : World) (rs : RandomState) (s : site) : bool :=
  match cloud_lookup w s with
  | Ok cell =>
      (daylight w s && (cloud_entry (percent cell) rs =? 0))
      || negb (consider_weather (parameters (self w)))
  | Raise _ => false
  end.

(** The sites that pass the test, each assessed 100 draws after the
    one before it. *)
Fixpoint planned (w : World) (rs : RandomState) (viewable : list site) : list site :=
  match viewable with
  | [] => []
  | s :: rest =>
      if eligible w rs s
      then s :: planned w (advance rs 100) rest
      else planned w (advance rs 100) rest
  end.

(** The clock as a number of minutes. *)
Definition total_minutes (d : datetime) : Z :=
  ordinal d * 1440 + hour d * 60 + minute d.

(** A time of day whose hour and minute are in their ranges. *)
Definition normal_time (d : datetime) : Prop :=
  0 <= hour d < 24 /\ 0 <= minute d < 60.

(** The date the clock reaches [m] minutes later. *)
Definition ordinal_after (d : datetime) (m : Z) : Z :=
  ordinal d + (hour d * 60 + minute d + m) / 1440.

(** The stripped lines of the catalog the schedule reads. *)
Definition catalog_lines (fs : FileSystem) (input_dir tlefile_ : string)
  : option (list string) :=
  option_map (map rstrip) (text_file fs (path_join input_dir tlefile_)).

(** The world with its [consider_weather] parameter set to [b]. *)
Definition set_consider_weather (b : bool) (w : World) : World :=
  let s := self w in
  let ps := parameters s in
  mkWorld
    (mkSchedule (mkParameters (input_directory ps) (weather_file ps) b)
       (config s) (deployment_days s)
       (crew_lat s) (crew_lon s) (work_hours s) (start_hour s) (end_hour s)
       (allowed_end_time s) (cloudcover s) (sat s) (tlefile s)
       (sched_predictor s) (sat_datetime s) (sat_date s) (orbit_path s)
       (worked_today s))
    (state w) (np_random w).

End DayNotions.

(** The scenario with a second latitude bucket that the weather grid,
    one row high, has no row for; site C falls in that bucket. *)
Definition site_C : @site Scenario.external := @mkSite Scenario.external 59 (-115) "C"%string.

Definition gap_world (cw : bool) : @World Scenario.external :=
  mkWorld (Scenario.the_schedule 0 cw)
          (mkSimState
             (mkTimeState (Scenario.day 738000) 0 (Scenario.day 738000)
                          (Scenario.day 738001))
             (@mkWeatherState Scenario.external [55; 59] [-115]))
          Scenario.rng.

(** The scenario with a ground track table that has no entry at all
    for the dates, and still a polygon. *)
Definition dateless_world : @World Scenario.external :=
  mkWorld
    (@mkSchedule Scenario.external (Scenario.params true) Scenario.conf ""%string
       0 0 24 0 23 None [[[0%Q]]] "GHGSAT-D"%string "tle.txt"%string
       ("1 41602U 16040D"%string, "2 41602  97.2"%string)
       [] [] [Scenario.footprint] None)
    (Scenario.sim_state 738000) Scenario.rng.

(** The scenario at a time step the one-step weather grid does not have. *)
Definition late_world (fraction : Q) (cw : bool) : World :=
  mkWorld (Scenario.the_schedule fraction cw)
          (mkSimState
             (mkTimeState (Scenario.day 738000) 5 (Scenario.day 738000)
                          (Scenario.day 738001))
             (@mkWeatherState Scenario.external [55] [-115]))
          Scenario.rng.

(** The scenario with a ground track table that lost a polygon. *)
Definition unequal_world : @World Scenario.external :=
  mkWorld
    (@mkSchedule Scenario.external (Scenario.params true) Scenario.conf ""%string 0 0 24 0 23 None
       [[[0%Q]]] "GHGSAT-D"%string "tle.txt"%string
       ("1 41602U 16040D"%string, "2 41602  97.2"%string)
       [Scenario.day 738000; Scenario.day 738001] [738000; 738001]
       [Scenario.footprint] None)
    (Scenario.sim_state 738000) Scenario.rng.

(** The scenario in the evening, with the sun up from hour 0 to hour 4. *)
Definition polar_external : External := {|
  coord := Z;
  opaque := string;
  polygon := Scenario.box;
  predictor := string * string;
  float16 := fun x => x;
  contains := Scenario.box_contains;
  geo_idx := Scenario.nearest_idx;
  quick_cal_daylight := fun _ _ _ => (0 # 1, 4 # 1);
  get_predictor_from_tle_lines := fun l1 l2 => Ok (l1, l2);
  init_orbit_poly := fun _ T1 T2 _ => Ok ([T1; T2], [Scenario.footprint; Scenario.footprint])
|}.

Definition polar_site : @site polar_external := @mkSite polar_external 55 (-115) "A"%string.

Definition polar_world (fraction : Q) (cw : bool) : @World polar_external :=
  @mkWorld polar_external
    (@mkSchedule polar_external
       (Scenario.params cw) Scenario.conf ""%string 0 0 24 0 23 None [[[fraction]]]
       "GHGSAT-D"%string "tle.txt"%string
       ("1 41602U 16040D"%string, "2 41602  97.2"%string)
       [Scenario.day 738000; Scenario.day 738001] [738000; 738001]
       [Scenario.footprint; Scenario.footprint] None)
    (@mkSimState polar_external
       (mkTimeState (mkDatetime 738000 20 30 0 0) 0 (Scenario.day 738000)
                    (Scenario.day 738001))
       (@mkWeatherState polar_external [55] [-115]))
    Scenario.rng.

(* ------------------------------------------------------------------ *)
(** ** Lemmas: Python and numpy primitives *)

Section RoundFacts.

Lemma round_integer (z : Z) : round (inject_Z z) = z.
Proof.
  unfold round. rewrite Qfloor_Z.
  replace (Qcompare (inject_Z z - inject_Z z) (1 # 2)) with Lt; [reflexivity|].
  symmetry. apply Qlt_alt.
  setoid_replace (inject_Z z - inject_Z z)%Q with 0%Q by ring.
  reflexivity.
Qed.

Lemma round_bounds (x : Q) : (Qfloor x <= round x <= Qfloor x + 1)%Z.
Proof.
  unfold round.
  destruct (Qcompare _ _); [destruct (Z.even _)| |]; lia.
Qed.

(** Rounding is monotone enough to keep a percentage in range. *)
Lemma round_percent_range (x : Q) :
  (0 <= x)%Q -> (x <= 100)%Q -> (0 <= round x <= 100)%Z.
Proof.
  intros H0 H100.
  assert (Hf0 : (0 <= Qfloor x)%Z).
  { change 0%Z with (Qfloor 0). apply Qfloor_resp_le, H0. }
  assert (Hf100 : (Qfloor x <= 100)%Z).
  { change 100%Z with (Qfloor (inject_Z 100)). apply Qfloor_resp_le, H100. }
  pose proof (round_bounds x) as Hb.
  split; [lia|].
  destruct (Z.eq_dec (Qfloor x) 100) as [Heq|Hne]; [|lia].
  (* the floor is 100: x is 100 and rounds to itself *)
  assert (Hx : (x == inject_Z 100)%Q).
  { apply Qle_antisym; [exact H100|].
    rewrite <- Heq. apply Qfloor_le. }
  unfold round. rewrite Heq.
  replace (Qcompare (x - inject_Z 100) (1 # 2)) with Lt; [lia|].
  symmetry. apply Qlt_alt.
  rewrite Hx. reflexivity.
Qed.

End RoundFacts.

Section FloatFacts.

Lemma round_comp (x y : Q) : (x == y)%Q -> round x = round y.
Proof.
  intros H. unfold round.
  rewrite (Qfloor_comp x y H).
  assert (Hc : Qcompare (x - inject_Z (Qfloor y)) (1 # 2) =
               Qcompare (y - inject_Z (Qfloor y)) (1 # 2)).
  { apply Qcompare_comp; [rewrite H|]; reflexivity. }
  rewrite Hc. reflexivity.
Qed.


Lemma round_at_least (x : Q) (z : Z) : (inject_Z z <= x)%Q -> z <= round x.
Proof.
  intros H. pose proof (round_bounds x) as Hb.
  apply Qfloor_resp_le in H. rewrite Qfloor_Z in H. lia.
Qed.

Lemma round_at_most (x : Q) (z : Z) : (x <= inject_Z z)%Q -> round x <= z.
Proof.
  intros H. pose proof (round_bounds x) as Hb.
  pose proof (Qfloor_resp_le _ _ H) as Hf. rewrite Qfloor_Z in Hf.
  destruct (Z.eq_dec (Qfloor x) z) as [Heq|Hne]; [|lia].
  assert (Hx : (x == inject_Z z)%Q).
  { apply Qle_antisym; [exact H|]. rewrite <- Heq. apply Qfloor_le. }
  rewrite (round_comp _ _ Hx), round_integer. lia.
Qed.

Lemma pow2_neg (e : Z) : e < 0 -> pow2 e = 1 # Z.to_pos (2 ^ (- e)).
Proof. intros H. unfold pow2. destruct (Z.leb_spec 0 e); [lia|reflexivity]. Qed.

Lemma pow2_nonneg (e : Z) : 0 <= e -> pow2 e = inject_Z (2 ^ e).
Proof. intros H. unfold pow2. destruct (Z.leb_spec 0 e); [reflexivity|lia]. Qed.

(** Division by a negative power of two is multiplication by the
    positive one. *)
Lemma div_pow2_neg (x : Q) (e : Z) :
  e < 0 -> (x / pow2 e == x * inject_Z (2 ^ (- e)))%Q.
Proof.
  intros H. rewrite (pow2_neg e H).
  assert (Hk : 0 < 2 ^ (- e)) by (apply Z.pow_pos_nonneg; lia).
  unfold Qdiv, Qinv. cbn [Qnum Qden].
  unfold Qeq, Qmult, inject_Z. cbn [Qnum Qden].
  rewrite Z2Pos.id by exact Hk. reflexivity.
Qed.

Lemma mul_pow2_neg (m : Z) (e : Z) :
  e < 0 -> (inject_Z m * pow2 e == m # Z.to_pos (2 ^ (- e)))%Q.
Proof.
  intros H. rewrite (pow2_neg e H).
  unfold Qeq, Qmult, inject_Z. cbn [Qnum Qden]. lia.
Qed.

Lemma binade_small (p : Q) : (0 < p)%Q -> (p <= 100)%Q -> binade p <= 7.
Proof.
  intros Hpos Hle.
  assert (He0 : Z.log2 (Z.abs (Qnum p)) - Z.log2 (Zpos (Qden p)) <= 7).
  { destruct p as [n d]. unfold Qlt, Qle in *. cbn [Qnum Qden] in *.
    assert (Hn : 0 < n) by lia.
    rewrite Z.abs_eq by lia.
    assert (Hnd : n <= Zpos d * 2 ^ 7) by (change (2 ^ 7) with 128; lia).
    pose proof (Z.log2_le_mono _ _ Hnd) as Hl.
    rewrite Z.log2_mul_pow2 in Hl by lia. lia. }
  unfold binade. destruct (Qle_bool _ _); lia.
Qed.

Lemma to_double_percent_range (p : Q) :
  (0 <= p)%Q -> (p <= 100)%Q ->
  exists r, to_double p = Finite r /\ (0 <= r)%Q /\ (r <= 100)%Q.
Proof.
  intros H0 H100. unfold to_double.
  destruct (Qeq_bool p 0) eqn:Hz.
  { exists 0%Q. repeat split; discriminate. }
  assert (Hne : ~ (p == 0)%Q) by (apply Qeq_bool_neq; exact Hz).
  assert (Hpos : (0 < p)%Q).
  { apply Qle_lteq in H0. destruct H0 as [H0|H0]; [exact H0|].
    exfalso. apply Hne. symmetry. exact H0. }
  pose proof (binade_small p Hpos H100) as Hb.
  cbv zeta.
  set (q := quantum p).
  assert (Hq : q < 0) by (unfold q, quantum; lia).
  set (K := 2 ^ (- q)).
  assert (HK : 0 < K) by (apply Z.pow_pos_nonneg; lia).
  set (m := round (p / pow2 q)).
  assert (Hm0 : 0 <= m).
  { apply round_at_least. rewrite (div_pow2_neg p q Hq). fold K.
    apply Qmult_le_0_compat; [exact H0|].
    unfold Qle, inject_Z. cbn [Qnum Qden]. lia. }
  assert (Hm100 : m <= 100 * K).
  { apply round_at_most. rewrite (div_pow2_neg p q Hq). fold K.
    rewrite inject_Z_mult.
    apply Qmult_le_compat_r; [exact H100|].
    unfold Qle, inject_Z. cbn [Qnum Qden]. lia. }
  set (y := Qred (inject_Z m * pow2 q)).
  assert (Hy : (y == m # Z.to_pos K)%Q).
  { unfold y. rewrite Qred_correct. apply (mul_pow2_neg m q Hq). }
  assert (Hy0 : (0 <= y)%Q).
  { rewrite Hy. unfold Qle. cbn [Qnum Qden]. lia. }
  assert (Hy100 : (y <= 100)%Q).
  { rewrite Hy. unfold Qle. cbn [Qnum Qden]. rewrite Z2Pos.id by exact HK. lia. }
  destruct (Qle_bool (pow2 1024) (Qabs y)) eqn:Hover.
  - exfalso. apply Qle_bool_iff in Hover.
    rewrite (Qabs_pos y Hy0) in Hover.
    assert (Hbig : (100 < pow2 1024)%Q) by reflexivity.
    apply (Qlt_irrefl 100). eapply Qlt_le_trans; [exact Hbig|].
    eapply Qle_trans; [exact Hover|exact Hy100].
  - exists y. repeat split; assumption.
Qed.

Lemma binade_le_abs (p : Q) :
  ~ (p == 0)%Q -> 0 <= binade p -> (pow2 (binade p) <= Qabs p)%Q.
Proof.
  intros Hne Hb. unfold binade in *.
  set (e0 := Z.log2 (Z.abs (Qnum p)) - Z.log2 (Zpos (Qden p))) in *.
  destruct (Qle_bool (pow2 e0) (Qabs p)) eqn:Ht.
  - apply Qle_bool_iff. exact Ht.
  - rewrite pow2_nonneg by exact Hb.
    destruct p as [n d]. unfold Qeq in Hne. cbn [Qnum Qden] in *.
    assert (Hn : 0 < Z.abs n) by lia.
    pose proof (Z.log2_spec (Z.abs n) Hn) as [Ha _].
    pose proof (Z.log2_spec (Zpos d) (Pos2Z.is_pos d)) as [_ Hd].
    assert (Hlb : 0 <= Z.log2 (Zpos d)) by apply Z.log2_nonneg.
    unfold Qle, Qabs, inject_Z. cbn [Qnum Qden].
    assert (Hpow : 2 ^ (e0 - 1) * 2 ^ Z.succ (Z.log2 (Zpos d))
                   = 2 ^ Z.log2 (Z.abs n)).
    { rewrite <- Z.pow_add_r by lia. f_equal. unfold e0. lia. }
    assert (H0 : 0 < 2 ^ (e0 - 1)) by (apply Z.pow_pos_nonneg; lia).
    nia.
Qed.

Lemma quantum_nonneg (p : Q) : 0 <= quantum p -> binade p = quantum p + 52.
Proof. unfold quantum. lia. Qed.

Lemma to_double_at_least (p r : Q) :
  (100 <= p)%Q -> to_double p = Finite r -> (100 <= r)%Q.
Proof.
  intros H100. unfold to_double.
  assert (Hpos : (0 < p)%Q) by (eapply Qlt_le_trans; [|exact H100]; reflexivity).
  destruct (Qeq_bool p 0) eqn:Hz.
  { apply Qeq_bool_iff in Hz. rewrite Hz in Hpos. discriminate Hpos. }
  assert (Hne : ~ (p == 0)%Q) by (apply Qeq_bool_neq; exact Hz).
  cbv zeta. set (q := quantum p). set (m := round (p / pow2 q)).
  set (y := Qred (inject_Z m * pow2 q)).
  assert (Hy : (y == inject_Z m * pow2 q)%Q) by apply Qred_correct.
  clearbody y.
  destruct (Qle_bool (pow2 1024) _); [discriminate|].
  intros Hr. injection Hr as <-. rewrite Hy.
  destruct (Z_lt_le_dec q 0) as [Hq|Hq].
  - set (K := 2 ^ (- q)).
    assert (HK : 0 < K) by (apply Z.pow_pos_nonneg; lia).
    assert (Hm : 100 * K <= m).
    { apply round_at_least. rewrite (div_pow2_neg p q Hq). fold K.
      rewrite inject_Z_mult.
      apply Qmult_le_compat_r; [exact H100|].
      unfold Qle, inject_Z. cbn [Qnum Qden]. lia. }
    rewrite (mul_pow2_neg m q Hq). fold K.
    unfold Qle. cbn [Qnum Qden]. rewrite Z2Pos.id by exact HK. lia.
  - pose proof (quantum_nonneg p Hq) as Hb. fold q in Hb.
    assert (Hlow : (pow2 (q + 52) <= p)%Q).
    { rewrite <- Hb.
      eapply Qle_trans; [apply binade_le_abs; [exact Hne|lia]|].
      rewrite Qabs_pos by (apply Qlt_le_weak; exact Hpos). apply Qle_refl. }
    rewrite pow2_nonneg in Hlow by lia.
    rewrite (pow2_nonneg q Hq).
    assert (H2q : 0 < 2 ^ q) by (apply Z.pow_pos_nonneg; lia).
    assert (Hm : 2 ^ 52 <= m).
    { apply round_at_least. rewrite (pow2_nonneg q Hq). apply Qle_shift_div_l.
      - unfold Qlt, inject_Z. cbn [Qnum Qden]. lia.
      - rewrite <- inject_Z_mult, <- Z.pow_add_r by lia.
        rewrite Z.add_comm. exact Hlow. }
    rewrite <- inject_Z_mult.
    unfold Qle, inject_Z. cbn [Qnum Qden].
    assert (H52 : 100 <= 2 ^ 52) by (vm_compute; discriminate).
    nia.
Qed.

Lemma to_double_at_most (p r : Q) :
  (p <= -100)%Q -> to_double p = Finite r -> (r <= -100)%Q.
Proof.
  intros H100. unfold to_double.
  assert (Hneg : (p < 0)%Q) by (eapply Qle_lt_trans; [exact H100|]; reflexivity).
  destruct (Qeq_bool p 0) eqn:Hz.
  { apply Qeq_bool_iff in Hz. rewrite Hz in Hneg. discriminate Hneg. }
  assert (Hne : ~ (p == 0)%Q) by (apply Qeq_bool_neq; exact Hz).
  cbv zeta. set (q := quantum p). set (m := round (p / pow2 q)).
  set (y := Qred (inject_Z m * pow2 q)).
  assert (Hy : (y == inject_Z m * pow2 q)%Q) by apply Qred_correct.
  clearbody y.
  destruct (Qle_bool (pow2 1024) _); [discriminate|].
  intros Hr. injection Hr as <-. rewrite Hy.
  destruct (Z_lt_le_dec q 0) as [Hq|Hq].
  - set (K := 2 ^ (- q)).
    assert (HK : 0 < K) by (apply Z.pow_pos_nonneg; lia).
    assert (Hm : m <= -100 * K).
    { apply round_at_most. rewrite (div_pow2_neg p q Hq). fold K.
      rewrite inject_Z_mult.
      apply Qmult_le_compat_r; [exact H100|].
      unfold Qle, inject_Z. cbn [Qnum Qden]. lia. }
    rewrite (mul_pow2_neg m q Hq). fold K.
    unfold Qle. cbn [Qnum Qden]. rewrite Z2Pos.id by exact HK. lia.
  - pose proof (quantum_nonneg p Hq) as Hb. fold q in Hb.
    assert (Hlow : (pow2 (q + 52) <= - p)%Q).
    { rewrite <- Hb.
      eapply Qle_trans; [apply binade_le_abs; [exact Hne|lia]|].
      rewrite Qabs_neg by (apply Qlt_le_weak; exact Hneg). apply Qle_refl. }
    rewrite pow2_nonneg in Hlow by lia.
    rewrite (pow2_nonneg q Hq).
    assert (H2q : 0 < 2 ^ q) by (apply Z.pow_pos_nonneg; lia).
    assert (Hm : m <= - 2 ^ 52).
    { apply round_at_most. rewrite (pow2_nonneg q Hq). apply Qle_shift_div_r.
      - unfold Qlt, inject_Z. cbn [Qnum Qden]. lia.
      - rewrite <- inject_Z_mult.
        replace (- 2 ^ 52 * 2 ^ q) with (- 2 ^ (q + 52))
          by (rewrite Z.pow_add_r by lia; lia).
        rewrite inject_Z_opp.
        apply Qopp_le_compat in Hlow. rewrite Qopp_involutive in Hlow.
        exact Hlow. }
    rewrite <- inject_Z_mult.
    unfold Qle, inject_Z. cbn [Qnum Qden].
    assert (H52 : 100 <= 2 ^ 52) by (vm_compute; discriminate).
    nia.
Qed.

End FloatFacts.

Section PercentFacts.

Lemma cloud_percent_of (cell z : Q) :
  (cell * 100 == z)%Q -> cloud_percent cell = round_float (to_double (Qred z)).
Proof.
  intros H. unfold cloud_percent, float_mul.
  now rewrite (Qred_complete _ _ H).
Qed.

Lemma cloud_percent_zero (cell : Q) : (cell == 0)%Q -> cloud_percent cell = Ok 0.
Proof.
  intros H. rewrite (cloud_percent_of cell 0); [reflexivity|].
  rewrite H. reflexivity.
Qed.

Lemma cloud_percent_one (cell : Q) : (cell == 1)%Q -> cloud_percent cell = Ok 100.
Proof.
  intros H. rewrite (cloud_percent_of cell 100); [vm_compute; reflexivity|].
  rewrite H. reflexivity.
Qed.

(** A fraction gives a percentage: the product is a finite float and
    rounds to an integer from 0 to 100. *)
Lemma cloud_percent_range (cell : Q) :
  (0 <= cell)%Q -> (cell <= 1)%Q ->
  exists CC, cloud_percent cell = Ok CC /\ 0 <= CC <= 100.
Proof.
  intros H0 H1. unfold cloud_percent, float_mul.
  destruct (to_double_percent_range (Qred (cell * 100))) as (r & Hr & Hr0 & Hr100).
  - rewrite Qred_correct.
    setoid_replace 0%Q with (0 * 100)%Q by ring.
    apply Qmult_le_compat_r; [exact H0 | discriminate].
  - rewrite Qred_correct.
    setoid_replace 100%Q with (1 * 100)%Q by ring.
    apply Qmult_le_compat_r; [exact H1 | discriminate].
  - rewrite Hr. exists (round r). split; [reflexivity|].
    apply round_percent_range; assumption.
Qed.

Lemma cloud_percent_above (cell : Q) (CC : Z) :
  (1 <= cell)%Q -> cloud_percent cell = Ok CC -> 100 <= CC.
Proof.
  intros H1. unfold cloud_percent, float_mul.
  destruct (to_double (Qred (cell * 100))) as [r|b] eqn:Hr; [|discriminate].
  intros H. injection H as <-.
  apply round_at_least. apply (to_double_at_least _ r) in Hr; [exact Hr|].
  rewrite Qred_correct.
  setoid_replace 100%Q with (1 * 100)%Q by ring.
  apply Qmult_le_compat_r; [exact H1 | discriminate].
Qed.

Lemma cloud_percent_below (cell : Q) (CC : Z) :
  (cell <= -1)%Q -> cloud_percent cell = Ok CC -> CC <= -100.
Proof.
  intros H1. unfold cloud_percent, float_mul.
  destruct (to_double (Qred (cell * 100))) as [r|b] eqn:Hr; [|discriminate].
  intros H. injection H as <-.
  apply round_at_most. apply (to_double_at_most _ r) in Hr; [exact Hr|].
  rewrite Qred_correct.
  setoid_replace (-100)%Q with (-1 * 100)%Q by ring.
  apply Qmult_le_compat_r; [exact H1 | discriminate].
Qed.

Lemma percent_of_ok (cell : Q) (CC : Z) :
  cloud_percent cell = Ok CC -> percent cell = CC.
Proof. intros H. unfold percent. now rewrite H. Qed.

(** A cell [assess_weather] got through has a percentage. *)
Lemma cloud_lookup_percent {E : External} (w : World) (s : site) (cell : Q) :
  cloud_lookup w s = Ok cell -> cloud_percent cell = Ok (percent cell).
Proof.
  unfold cloud_lookup.
  destruct (grid_item _ _ _ _) as [c|e]; [|discriminate].
  destruct (cloud_percent c) as [CC|e] eqn:Hc; [|discriminate].
  intros H. injection H as <-. rewrite Hc. now rewrite (percent_of_ok c CC Hc).
Qed.

End PercentFacts.

(** The double written 0.155 times 100 is the double 15.5, which rounds
    to 16; the exact product, just below 15.5, would round to 15. *)
Example cloud_percent_of_double_0_155 :
  cloud_percent (5584463537939415 # 36028797018963968) = Ok 16 /\
  round ((5584463537939415 # 36028797018963968) * 100) = 15.
Proof. split; vm_compute; reflexivity. Qed.

(** The double written 0.005 times 100 is the double 0.5, which rounds
    to 0. *)
Example cloud_percent_of_double_0_005 :
  cloud_percent (5764607523034235 # 1152921504606846976) = Ok 0.
Proof. vm_compute. reflexivity. Qed.

(** The product of 10^307 and 100 is infinite, and [round] raises. *)
Example cloud_percent_of_huge_cell :
  cloud_percent (inject_Z (10 ^ 307)) = Raise cannot_convert_infinity.
Proof. vm_compute. reflexivity. Qed.

(** A no-break space and a newline after the identifier are stripped. *)
Example rstrip_no_break_space :
  rstrip (String.append "GHGSAT-D"
            (String (ascii_of_nat 160) (String (ascii_of_nat 10) EmptyString)))
  = "GHGSAT-D"%string.
Proof. reflexivity. Qed.

Section ShuffleFacts.

Lemma set_item_length (i : nat) (v : Z) (l : list Z) :
  length (set_item i v l) = length l.
Proof.
  revert i; induction l as [|x l IH]; intros [|i]; simpl; auto.
Qed.

Lemma nth_set_item (i j : nat) (v : Z) (l : list Z) :
  (j < length l)%nat ->
  nth i (set_item j v l) 0 = if (i =? j)%nat then v else nth i l 0.
Proof.
  revert i j; induction l as [|x l IH]; intros i j Hj; simpl in Hj; [lia|].
  destruct j as [|j], i as [|i]; simpl; try reflexivity.
  apply IH. lia.
Qed.

(** Writing [v] at [i] trades the old entry for [v]. *)
Lemma set_item_Permutation (i : nat) (v : Z) (l : list Z) :
  (i < length l)%nat ->
  Permutation (nth i l 0 :: set_item i v l) (v :: l).
Proof.
  revert i; induction l as [|x l IH]; intros i Hi; simpl in Hi; [lia|].
  destruct i as [|i]; simpl.
  - apply perm_swap.
  - eapply perm_trans; [apply perm_swap|].
    eapply perm_trans; [apply perm_skip, IH; lia|].
    apply perm_swap.
Qed.

Lemma swap_Permutation (i j : nat) (l : list Z) :
  (i < length l)%nat -> (j < length l)%nat -> Permutation (swap i j l) l.
Proof.
  intros Hi Hj. unfold swap.
  set (xi := nth i l 0). set (xj := nth j l 0).
  apply Permutation_cons_inv with (a := xi).
  assert (Hnth : nth i (set_item j xi l) 0 = xi).
  { rewrite nth_set_item by assumption.
    destruct (i =? j)%nat; reflexivity. }
  rewrite <- Hnth at 1.
  eapply perm_trans.
  - apply set_item_Permutation. rewrite set_item_length. assumption.
  - apply set_item_Permutation. assumption.
Qed.

Lemma swap_length (i j : nat) (l : list Z) : length (swap i j l) = length l.
Proof. unfold swap. now rewrite !set_item_length. Qed.

Lemma shuffle_loop_spec (i : nat) :
  forall (arr : list Z) (rs : RandomState),
    (i < length arr)%nat ->
    Permutation (fst (shuffle_loop i arr rs)) arr /\
    pos (snd (shuffle_loop i arr rs)) = (pos rs + i)%nat /\
    draws (snd (shuffle_loop i arr rs)) = draws rs.
Proof.
  induction i as [|i IH]; intros arr rs Hi.
  - simpl. repeat split; auto; lia.
  - change (shuffle_loop (S i) arr rs)
      with (shuffle_loop i (swap (S i) (draws rs (pos rs) mod S (S i)) arr)
              (mkRandomState (draws rs) (S (pos rs)))).
    assert (Hj : (draws rs (pos rs) mod S (S i) < length arr)%nat).
    { pose proof (Nat.mod_upper_bound (draws rs (pos rs)) (S (S i))). lia. }
    specialize (IH (swap (S i) (draws rs (pos rs) mod S (S i)) arr)
                   (mkRandomState (draws rs) (S (pos rs)))).
    rewrite swap_length in IH. destruct IH as (Hp & Hpos & Hd); [lia|].
    repeat split.
    + eapply perm_trans; [exact Hp|]. apply swap_Permutation; assumption.
    + rewrite Hpos. simpl. lia.
    + rewrite Hd. reflexivity.
Qed.

(** [shuffle] permutes, and takes one draw per entry but the first. *)
Lemma shuffle_spec (arr : list Z) (rs : RandomState) :
  Permutation (fst (shuffle arr rs)) arr /\
  pos (snd (shuffle arr rs)) = (pos rs + (length arr - 1))%nat /\
  draws (snd (shuffle arr rs)) = draws rs.
Proof.
  unfold shuffle. destruct arr as [|x arr].
  - simpl. repeat split; auto; lia.
  - apply shuffle_loop_spec. simpl. lia.
Qed.

(** The shuffle only reads the draws it takes. *)
Lemma shuffle_loop_ext (i : nat) :
  forall (arr : list Z) (rs rs' : RandomState),
    pos rs = pos rs' ->
    (forall n, (pos rs <= n < pos rs + i)%nat -> draws rs n = draws rs' n) ->
    fst (shuffle_loop i arr rs) = fst (shuffle_loop i arr rs').
Proof.
  induction i as [|i IH]; intros arr rs rs' Hpos Hd; [reflexivity|].
  change (shuffle_loop (S i) arr rs)
    with (shuffle_loop i (swap (S i) (draws rs (pos rs) mod S (S i)) arr)
            (mkRandomState (draws rs) (S (pos rs)))).
  change (shuffle_loop (S i) arr rs')
    with (shuffle_loop i (swap (S i) (draws rs' (pos rs') mod S (S i)) arr)
            (mkRandomState (draws rs') (S (pos rs')))).
  rewrite <- Hpos. rewrite <- (Hd (pos rs)) by lia.
  apply IH; [reflexivity|].
  intros n Hn. apply Hd. cbn [pos] in Hn. lia.
Qed.

Lemma zeros_with_ones_length (n : nat) (stop : Z) :
  length (zeros_with_ones n stop) = n.
Proof.
  unfold zeros_with_ones. rewrite length_app, !repeat_length.
  assert (slice_stop n stop <= n)%nat; [|lia].
  unfold slice_stop. destruct (stop <? 0) eqn:Hs; lia.
Qed.

(** In range, [stop] is the number of ones. *)
Lemma slice_stop_in_range (n : nat) (stop : Z) :
  0 <= stop <= Z.of_nat n -> slice_stop n stop = Z.to_nat stop.
Proof.
  intros H. unfold slice_stop.
  destruct (stop <? 0) eqn:Hs; lia.
Qed.

Lemma ones_Permutation (l l' : list Z) : Permutation l l' -> ones l = ones l'.
Proof.
  intros H. unfold ones. induction H; simpl.
  - reflexivity.
  - destruct (negb (x =? 0)); simpl; congruence.
  - destruct (negb (x =? 0)), (negb (y =? 0)); reflexivity.
  - congruence.
Qed.

Lemma ones_zeros_with_ones (n : nat) (stop : Z) :
  ones (zeros_with_ones n stop) = slice_stop n stop.
Proof.
  unfold ones, zeros_with_ones. rewrite filter_app, length_app.
  generalize (slice_stop n stop) as k. intros k.
  assert (H1 : forall m, length (filter (fun c => negb (c =? 0)) (repeat 1 m)) = m).
  { induction m; simpl; auto. }
  assert (H0 : forall m, length (filter (fun c => negb (c =? 0)) (repeat 0 m)) = O).
  { induction m; simpl; auto. }
  rewrite H1, H0. lia.
Qed.

Lemma filter_map_S_length (g : nat -> bool) (l : list nat) :
  length (filter g (map S l)) = length (filter (fun v => g (S v)) l).
Proof.
  induction l as [|n l IH]; simpl; [reflexivity|].
  destruct (g (S n)); simpl; rewrite IH; reflexivity.
Qed.

(** Reading every index of a list visits each entry once. *)
Lemma filter_nth_seq (f : Z -> bool) (l : list Z) :
  length (filter (fun v => f (nth v l 0)) (seq 0 (length l))) =
  length (filter f l).
Proof.
  induction l as [|x l IH]; [reflexivity|].
  cbn [length seq filter nth].
  rewrite <- seq_shift.
  destruct (f x); cbn [length]; rewrite filter_map_S_length, <- IH; reflexivity.
Qed.

End ShuffleFacts.

(* ------------------------------------------------------------------ *)
(** ** Lemmas: the methods of the crew schedule *)

Section MethodFacts.

Context {E : External}.

Lemma set_np_random_twice (rs rs' : RandomState) (w : World) :
  set_np_random rs' (set_np_random rs w) = set_np_random rs' w.
Proof. reflexivity. Qed.

Lemma advance_advance (rs : RandomState) (a b : nat) :
  advance (advance rs a) b = advance rs (a + b).
Proof. unfold advance; simpl. f_equal. lia. Qed.

Lemma seen_on_path_existsb (DP : list polygon) (x y : coord) :
  seen_on_path DP x y = existsb (fun dp => contains dp x y) DP.
Proof.
  induction DP as [|dp DP IH]; simpl; [reflexivity|].
  destruct (contains dp x y); simpl; auto.
Qed.

Lemma viewable_loop_filter (DP : list polygon) (site_pool : list site) :
  forall valid_site,
    viewable_loop DP site_pool valid_site =
    valid_site ++ filter (covered_by DP) site_pool.
Proof.
  induction site_pool as [|s rest IH]; intros acc; simpl.
  - now rewrite app_nil_r.
  - unfold covered_by at 1. rewrite seen_on_path_existsb.
    destruct (existsb _ DP); rewrite IH; [|reflexivity].
    now rewrite <- app_assoc.
Qed.

Lemma mask_select_combine (today : Z) (dates : list Z) :
  forall (a : list polygon),
    length a = length dates ->
    mask_select a (map (fun d => d =? today) dates) =
    map snd (filter (fun e => fst e =? today) (combine dates a)).
Proof.
  induction dates as [|d dates IH]; intros [|x a] Hlen; simpl in *;
    try reflexivity; try discriminate.
  destruct (d =? today); simpl; rewrite IH by lia; reflexivity.
Qed.

(** [calc_viewable_sites] reads the world and leaves it as it is. *)
Lemma calc_viewable_sites_run (site_pool : list site) (w : World) :
  calc_viewable_sites site_pool w =
  (match getitem_mask (orbit_path (self w))
           (map (fun d => d =? date (current_date (t (state w)))) (sat_date (self w)))
   with
   | Ok DP => Ok (viewable_loop DP site_pool [])
   | Raise e => Raise e
   end, w).
Proof.
  unfold calc_viewable_sites, bind, read, lift, ret.
  destruct (getitem_mask _ _); reflexivity.
Qed.

Lemma calc_viewable_sites_parallel (site_pool : list site) (w : World) :
  length (sat_date (self w)) = length (orbit_path (self w)) ->
  calc_viewable_sites site_pool w = (Ok (viewable_today w site_pool), w).
Proof.
  intros Hlen. rewrite calc_viewable_sites_run. unfold getitem_mask.
  rewrite length_map, <- Hlen, Nat.eqb_refl.
  destruct (Nat.eqb_spec (length (sat_date (self w))) 0) as [Hempty|_].
  - rewrite viewable_loop_filter. unfold viewable_today, polygons_on.
    apply length_zero_iff_nil in Hempty. rewrite Hempty. reflexivity.
  - rewrite viewable_loop_filter, mask_select_combine by auto.
    reflexivity.
Qed.

(** The shuffled indicator array has its 100 entries. *)
Lemma shuffled_length (CC : Z) (rs : RandomState) :
  length (fst (shuffle (zeros_with_ones 100 CC) rs)) = 100%nat.
Proof.
  destruct (shuffle_spec (zeros_with_ones 100 CC) rs) as (Hp & _).
  rewrite (Permutation_length Hp). apply zeros_with_ones_length.
Qed.

Lemma cloud_draw_run (CC : Z) (w : World) :
  cloud_draw CC w =
  (Ok (cloud_entry CC (np_random w) =? 0),
   set_np_random (advance (np_random w) 100) w).
Proof.
  unfold cloud_draw, cloud_entry, bind, with_np_random, lift, ret, choice_draw.
  pose proof (shuffled_length CC (np_random w)) as Hlen.
  destruct (shuffle_spec (zeros_with_ones 100 CC) (np_random w)) as (_ & Hpos & Hd).
  rewrite zeros_with_ones_length in Hpos.
  destruct (shuffle (zeros_with_ones 100 CC) (np_random w)) as [arr' rs1].
  cbn [fst snd] in *.
  unfold choice1. destruct arr' as [|c0 arr']; [discriminate Hlen|].
  rewrite Hlen. unfold random_interval.
  cbn [np_random set_np_random].
  rewrite Hpos, Hd.
  change (100 - 1)%nat with 99%nat. change (S 99) with 100%nat.
  set (c := nth _ _ 0).
  replace (mkRandomState (draws (np_random w)) (S (pos (np_random w) + 99)))
    with (advance (np_random w) 100)
    by (unfold advance; f_equal; lia).
  destruct (c =? 0); reflexivity.
Qed.

Lemma assess_weather_run (s : site) (w : World) :
  assess_weather s w =
  match cloud_lookup w s with
  | Ok cell =>
      (Ok (daylight w s, cloud_entry (percent cell) (np_random w) =? 0),
       set_np_random (advance (np_random w) 100) w)
  | Raise e => (Raise e, w)
  end.
Proof.
  unfold assess_weather, cloud_lookup, daylight, percent, cloud_percent.
  unfold bind at 1 2 3 4. unfold read.
  destruct (quick_cal_daylight _ _ _) as [sr ss].
  unfold bind at 1 2 3. unfold lift.
  destruct (grid_item _ _ _ _) as [cell|e]; [|reflexivity].
  cbv zeta. unfold bind at 1.
  destruct (round_float (float_mul cell 100)) as [CC|e] eqn:Hr; [|reflexivity].
  unfold bind. rewrite cloud_draw_run. cbv beta iota. rewrite Hr. reflexivity.
Qed.

(** *** What the loop of [start_day] does *)

Lemma cloud_lookup_set_np_random (rs : RandomState) (w : World) (s : site) :
  cloud_lookup (set_np_random rs w) s = cloud_lookup w s.
Proof. reflexivity. Qed.

Lemma plan_loop_steps (viewable : list site) :
  forall (plans : list plan) (w : World),
    world_after (plan_loop viewable plans) w =
    world_after (for_each assess_weather viewable) w.
Proof.
  induction viewable as [|s rest IH]; intros plans w; [reflexivity|].
  unfold world_after in *. cbn [plan_loop for_each]. unfold bind at 1 3.
  destruct (assess_weather s w) as [[[dl cc]|e] w1]; [|reflexivity].
  unfold bind, read.
  destruct ((dl && cc) || negb (consider_weather (parameters (self w1))));
    apply IH.
Qed.

Lemma for_each_assess_weather_frame (viewable : list site) :
  forall (w : World),
    self (world_after (for_each assess_weather viewable) w) = self w /\
    state (world_after (for_each assess_weather viewable) w) = state w.
Proof.
  induction viewable as [|s rest IH]; intros w; [split; reflexivity|].
  unfold world_after in *. cbn [for_each]. unfold bind.
  rewrite assess_weather_run.
  destruct (cloud_lookup w s) as [cell|e]; [|split; reflexivity].
  apply (IH (set_np_random _ w)).
Qed.

(** With weather not considered and every lookup in range, the loop
    plans every site and takes 100 draws for each. *)
Lemma plan_loop_no_weather (viewable : list site) :
  forall (plans : list plan) (w : World),
    consider_weather (parameters (self w)) = false ->
    (forall s, In s viewable -> exists cell, cloud_lookup w s = Ok cell) ->
    plan_loop viewable plans w =
    (Ok (plans ++ map plan_visit viewable),
     set_np_random (advance (np_random w) (100 * length viewable)) w).
Proof.
  induction viewable as [|s rest IH]; intros plans w Hcw Hok.
  - cbn [plan_loop map length]. unfold ret. rewrite app_nil_r.
    destruct w as [sf st [d p]]. unfold set_np_random, advance. cbn.
    repeat f_equal. lia.
  - cbn [plan_loop]. unfold bind at 1. rewrite assess_weather_run.
    destruct (Hok s (or_introl eq_refl)) as [cell Hcell]. rewrite Hcell.
    unfold bind, read. cbn [self set_np_random]. rewrite Hcw.
    rewrite orb_true_r.
    rewrite IH; [| exact Hcw | intros s' Hs'; apply Hok; now right].
    cbn [np_random set_np_random map length].
    rewrite <- app_assoc, advance_advance. cbn [app].
    replace (100 + 100 * length rest)%nat with (100 * S (length rest))%nat by lia.
    reflexivity.
Qed.

(** *** start_day *)

Lemma replace_hour_1 (d : datetime) :
  replace_hour d 1 =
  Ok (mkDatetime (ordinal d) 1 (minute d) (second d) (microsecond d)).
Proof. reflexivity. Qed.


Lemma calc_viewable_sites_day_started (site_pool : list site) (w : World) :
  outcome (calc_viewable_sites site_pool) (day_started w) =
  outcome (calc_viewable_sites site_pool) w.
Proof.
  unfold outcome. rewrite !calc_viewable_sites_run. reflexivity.
Qed.

Lemma start_day_run (site_pool : list site) (w : World) :
  start_day site_pool w =
  match outcome (calc_viewable_sites site_pool) w with
  | Raise e => (Raise e, day_started w)
  | Ok [] => (Ok [], set_worked_today false (day_started w))
  | Ok viewable => plan_loop viewable [] (day_started w)
  end.
Proof.
  rewrite <- calc_viewable_sites_day_started.
  unfold start_day. unfold bind at 1 2 3. unfold read, lift, modify.
  rewrite replace_hour_1. unfold bind at 1.
  change (set_current_date _ w) with (day_started w).
  unfold outcome.
  rewrite calc_viewable_sites_run. cbn [fst].
  destruct (getitem_mask _ _) as [DP|e]; [|reflexivity].
  destruct (viewable_loop DP site_pool []) as [|s rest]; reflexivity.
Qed.

End MethodFacts.

(* ------------------------------------------------------------------ *)
(** ** Properties of the crew schedule *)

Lemma covered_by_spec {E : External} (DP : list polygon) (s : site) :
  covered_by DP s = true <->
  exists dp, In dp DP /\ contains dp (float16 (lon s)) (float16 (lat s)) = true.
Proof. unfold covered_by. apply existsb_exists. Qed.

(** C1. On a ground track table whose two arrays are parallel,
    [calc_viewable_sites] returns, for every pool and every current
    date, the pool filtered by "the reduced coordinates lie in one of
    the polygons recorded for that date": exactly those sites, in pool
    order. It changes nothing, and it returns the empty list when no
    polygon of the day covers a site of the pool. *)
Theorem calc_viewable_sites_filters_pool {E : External} (site_pool : list site) (w : World) :
  length (sat_date (self w)) = length (orbit_path (self w)) ->
  let DP := polygons_on (self w) (date (current_date (t (state w)))) in
  outcome (calc_viewable_sites site_pool) w = Ok (filter (covered_by DP) site_pool) /\
  world_after (calc_viewable_sites site_pool) w = w /\
  (forall s, In s (filter (covered_by DP) site_pool) <->
               In s site_pool /\
               exists dp, In dp DP /\
                          contains dp (float16 (lon s)) (float16 (lat s)) = true) /\
  ((forall s dp, In s site_pool -> In dp DP ->
                   contains dp (float16 (lon s)) (float16 (lat s)) = false) ->
   outcome (calc_viewable_sites site_pool) w = Ok []).
Proof.
  intros Hlen DP.
  unfold outcome, world_after.
  rewrite (calc_viewable_sites_parallel site_pool w Hlen).
  cbn [fst snd]. fold DP. unfold viewable_today. fold DP.
  split; [reflexivity|]. split; [reflexivity|]. split.
  - intros s. rewrite filter_In, covered_by_spec. reflexivity.
  - intros Hnone. f_equal.
    induction site_pool as [|s rest IH]; [reflexivity|].
    cbn [filter].
    assert (Hs : covered_by DP s = false).
    { destruct (covered_by DP s) eqn:Hc; [|reflexivity].
      apply covered_by_spec in Hc. destruct Hc as (dp & Hin & Hc).
      rewrite (Hnone s dp (or_introl eq_refl) Hin) in Hc. discriminate. }
    rewrite Hs. apply IH. intros s' dp Hs' Hdp.
    apply Hnone; [now right | assumption].
Qed.

(** In the scenario, on the first day, site A is seen and site B is not,
    and the order of the pool is kept. *)
Lemma calc_viewable_sites_filters_pool_witness :
  outcome (calc_viewable_sites [Scenario.site_A; Scenario.site_B; Scenario.site_A])
          (Scenario.the_world (3 # 10) true 738000)
  = Ok [Scenario.site_A; Scenario.site_A].
Proof.
  exact (proj1 (calc_viewable_sites_filters_pool
                  [Scenario.site_A; Scenario.site_B; Scenario.site_A]
                  (Scenario.the_world (3 # 10) true 738000) eq_refl)).
Defined.

(** *** The day's itinerary *)

Lemma plan_visit_fields {E : External} (sites : list site) :
  map plan_site (map plan_visit sites) = sites /\
  Forall (fun p => go_to_site p = true /\ LDAR_mins p = 0 /\ remaining_mins p = 0)
         (map plan_visit sites).
Proof.
  induction sites as [|s rest [IHs IHf]]; cbn [map].
  - split; [reflexivity | constructor].
  - split.
    + cbn [plan_visit plan_site]. now rewrite IHs.
    + constructor; [repeat split | exact IHf].
Qed.

(** With a viewable site, [start_day] is the clock reset followed by the loop. *)
Lemma start_day_some_viewable {E : External}
    (site_pool viewable : list site) (w : World) :
  outcome (calc_viewable_sites site_pool) w = Ok viewable ->
  viewable <> [] ->
  start_day site_pool w = plan_loop viewable [] (day_started w).
Proof.
  intros Hv Hne. rewrite start_day_run, Hv.
  destruct viewable; [contradiction|reflexivity].
Qed.

(** C3. When [consider_weather] is false, the itinerary [start_day]
    returns holds every site [calc_viewable_sites] returns, in the same
    order, each entry with [go_to_site = true], [LDAR_mins = 0] and
    [remaining_mins = 0], whatever the daylight hours, the cloud cells
    and the random state are, as long as the cloud grid has a cell for
    each of these sites. *)
Theorem start_day_plans_every_viewable_site {E : External}
    (site_pool viewable : list site) (w : World) :
  consider_weather (parameters (self w)) = false ->
  outcome (calc_viewable_sites site_pool) w = Ok viewable ->
  (forall s, In s viewable -> exists cell, cloud_lookup w s = Ok cell) ->
  exists itinerary,
    outcome (start_day site_pool) w = Ok itinerary /\
    itinerary = map plan_visit viewable /\
    map plan_site itinerary = viewable /\
    Forall (fun p => go_to_site p = true /\ LDAR_mins p = 0 /\ remaining_mins p = 0)
           itinerary.
Proof.
  intros Hcw Hv Hok.
  exists (map plan_visit viewable).
  destruct (plan_visit_fields viewable) as [Hs Hf].
  repeat split; auto.
  unfold outcome. rewrite start_day_run, Hv.
  destruct viewable as [|s rest]; [reflexivity|].
  rewrite plan_loop_no_weather; [reflexivity | exact Hcw | exact Hok].
Qed.

(** The scenario with weather not considered and a fully clouded cell:
    site A is planned twice, in order, although it is night at hour 1
    and the sky is covered. *)
Lemma start_day_plans_every_viewable_site_witness :
  exists itinerary,
    outcome (start_day [Scenario.site_A; Scenario.site_B; Scenario.site_A])
            (Scenario.the_world 1 false 738000) = Ok itinerary /\
    itinerary = map plan_visit [Scenario.site_A; Scenario.site_A] /\
    map plan_site itinerary = [Scenario.site_A; Scenario.site_A] /\
    Forall (fun p => go_to_site p = true /\ LDAR_mins p = 0 /\ remaining_mins p = 0)
           itinerary.
Proof.
  apply (start_day_plans_every_viewable_site
           [Scenario.site_A; Scenario.site_B; Scenario.site_A]
           [Scenario.site_A; Scenario.site_A]
           (Scenario.the_world 1 false 738000)).
  - reflexivity.
  - reflexivity.
  - intros s _. exists 1%Q. reflexivity.
Defined.

(** *** The random source *)

Lemma assess_weather_draws {E : External} (s : site) (w : World) (cell : Q) :
  cloud_lookup w s = Ok cell ->
  world_after (assess_weather s) w = set_np_random (advance (np_random w) 100) w.
Proof.
  intros H. unfold world_after. rewrite assess_weather_run, H. reflexivity.
Qed.

(** C8. When [consider_weather] is false and a site is viewable,
    [start_day] still calls [assess_weather] once for each viewable
    site, in order: the world it leaves is the one these calls leave
    after the clock reset. Each call takes 100 draws from the shared
    random state (99 for the shuffle, one for the choice), so the day
    moves the random state by 100 draws per viewable site, while the
    itinerary does not depend on what was drawn. *)
Theorem start_day_assesses_weather_when_not_considered {E : External}
    (site_pool viewable : list site) (w : World) :
  consider_weather (parameters (self w)) = false ->
  outcome (calc_viewable_sites site_pool) w = Ok viewable ->
  viewable <> [] ->
  (forall s, In s viewable -> exists cell, cloud_lookup w s = Ok cell) ->
  world_after (start_day site_pool) w =
    world_after (for_each assess_weather viewable) (day_started w) /\
  (forall s rs, In s viewable ->
     pos (np_random (world_after (assess_weather s) (set_np_random rs (day_started w))))
     = (pos rs + 100)%nat) /\
  (forall CC rs,
     let shuffled := shuffle (zeros_with_ones 100 CC) rs in
     pos (snd shuffled) = (pos rs + 99)%nat /\
     pos (snd (choice1 (fst shuffled) (snd shuffled))) = (pos rs + 100)%nat) /\
  np_random (world_after (start_day site_pool) w) =
    advance (np_random w) (100 * length viewable) /\
  outcome (start_day site_pool) w = Ok (map plan_visit viewable).
Proof.
  intros Hcw Hv Hne Hok.
  pose proof (start_day_some_viewable site_pool viewable w Hv Hne) as Hrun.
  assert (Hw : world_after (start_day site_pool) w =
               world_after (plan_loop viewable []) (day_started w))
    by (unfold world_after; now rewrite Hrun).
  assert (Ho : outcome (start_day site_pool) w =
               outcome (plan_loop viewable []) (day_started w))
    by (unfold outcome; now rewrite Hrun).
  rewrite Hw, Ho.
  split; [apply plan_loop_steps|]. split; [|split].
  - intros s rs Hin.
    destruct (Hok s Hin) as [cell Hcell].
    rewrite (assess_weather_draws s _ cell); [reflexivity | exact Hcell].
  - intros CC rs shuffled. subst shuffled.
    pose proof (shuffled_length CC rs) as Hlen.
    destruct (shuffle_spec (zeros_with_ones 100 CC) rs) as (_ & Hp & _).
    rewrite zeros_with_ones_length in Hp.
    destruct (shuffle _ _) as [arr rs1]. cbn [snd fst] in *.
    split; [exact Hp|].
    destruct arr as [|c arr]; [discriminate Hlen|].
    unfold choice1, random_interval. cbn [snd pos]. rewrite Hp. lia.
  - unfold world_after, outcome.
    rewrite plan_loop_no_weather; [split; reflexivity | exact Hcw | exact Hok].
Qed.

Lemma start_day_assesses_weather_when_not_considered_witness :
  np_random (world_after (start_day [Scenario.site_A; Scenario.site_B; Scenario.site_A])
                         (Scenario.the_world 1 false 738000))
  = advance Scenario.rng 200.
Proof.
  refine (proj1 (proj2 (proj2 (proj2
    (start_day_assesses_weather_when_not_considered
       [Scenario.site_A; Scenario.site_B; Scenario.site_A]
       [Scenario.site_A; Scenario.site_A]
       (Scenario.the_world 1 false 738000) eq_refl eq_refl _ _))))).
  - discriminate.
  - intros s _. exists 1%Q. reflexivity.
Defined.

(** *** The [worked_today] flag and the clock *)

Lemma plan_loop_frame {E : External} (viewable : list site) (plans : list plan)
    (w : World) :
  self (world_after (plan_loop viewable plans) w) = self w /\
  state (world_after (plan_loop viewable plans) w) = state w.
Proof.
  rewrite plan_loop_steps. apply for_each_assess_weather_frame.
Qed.

Lemma start_day_worked_today {E : External} (site_pool : list site) (w : World) :
  worked_today (self (world_after (start_day site_pool) w)) =
  match outcome (calc_viewable_sites site_pool) w with
  | Ok [] => Some false
  | _ => worked_today (self w)
  end.
Proof.
  unfold world_after at 1. rewrite start_day_run.
  destruct (outcome (calc_viewable_sites site_pool) w) as [[|s rest]|e];
    try reflexivity.
  change (snd (plan_loop (s :: rest) [] (day_started w)))
    with (world_after (plan_loop (s :: rest) []) (day_started w)).
  now rewrite (proj1 (plan_loop_frame (s :: rest) [] (day_started w))).
Qed.

Lemma start_day_hour {E : External} (site_pool : list site) (w : World) :
  hour (current_date (t (state (world_after (start_day site_pool) w)))) = 1.
Proof.
  unfold world_after at 1. rewrite start_day_run.
  destruct (outcome (calc_viewable_sites site_pool) w) as [[|s rest]|e];
    try reflexivity.
  change (snd (plan_loop (s :: rest) [] (day_started w)))
    with (world_after (plan_loop (s :: rest) []) (day_started w)).
  now rewrite (proj2 (plan_loop_frame (s :: rest) [] (day_started w))).
Qed.

(** C9. [start_day] sets [worked_today] to [False] when
    [calc_viewable_sites] returns the empty list and otherwise leaves
    the attribute as it was; no operation of the schedule gives it
    another value than [False], and [__init__] does not assign it. *)
Theorem worked_today_is_only_ever_cleared {E : External} :
  (forall (site_pool : list site) (w : World),
     worked_today (self (world_after (start_day site_pool) w)) =
     match outcome (calc_viewable_sites site_pool) w with
     | Ok [] => Some false
     | _ => worked_today (self w)
     end) /\
  (forall (op : operation) (w : World),
     worked_today (self (world_after (run op) w)) = worked_today (self w) \/
     worked_today (self (world_after (run op) w)) = Some false) /\
  (forall fs id lat_ lon_ st config_ parameters_ deployment_days_,
     match init fs id lat_ lon_ st config_ parameters_ deployment_days_ with
     | Ok s => worked_today s = None
     | Raise _ => True
     end).
Proof.
  split; [exact start_day_worked_today|]. split.
  - intros [site_pool|s|site_pool|s|work_mins|site_pool itinerary] w.
    + assert (Hw : world_after (run (StartDay site_pool)) w =
                   world_after (start_day site_pool) w).
      { unfold world_after, run, bind, ret.
        destruct (start_day site_pool w) as [[plans|e] w']; reflexivity. }
      rewrite Hw, start_day_worked_today.
      destruct (outcome (calc_viewable_sites site_pool) w) as [[|s rest]|e]; auto.
    + left; reflexivity.
    + left. unfold world_after, run, bind. rewrite calc_viewable_sites_run.
      destruct (getitem_mask _ _); reflexivity.
    + left. unfold world_after, run, bind. rewrite assess_weather_run.
      destruct (cloud_lookup w s); reflexivity.
    + left. unfold world_after, run, update_schedule, bind, read, lift, modify.
      destruct (add_minutes _ _); reflexivity.
    + left; reflexivity.
  - intros. unfold init.
    destruct (netcdf_tcc _ _); [|exact I].
    destruct (get_orbit_predictor _ _ _ _); [|exact I].
    destruct (get_orbit_path _ _) as [[[sdt sd] op]|e]; [reflexivity|exact I].
Qed.

(** C7. On the schedule [__init__] builds in the scenario the working
    window starts at hour 0, and [start_day] leaves the clock at hour 1. *)
Theorem start_day_clock_is_not_at_start_hour :
  match Scenario.world 0 false 738000 with
  | Ok w =>
      let w' := world_after (start_day [Scenario.site_A]) w in
      start_hour (self w') = 0 /\
      hour (current_date (t (state w'))) = 1 /\
      hour (current_date (t (state w'))) <> start_hour (self w')
  | Raise _ => False
  end.
Proof.
  vm_compute. repeat split; discriminate.
Qed.

(** *** The cloud draw *)


(** The entry drawn is an entry of the indicator array. *)
Lemma cloud_entry_In (CC : Z) (rs : RandomState) :
  In (cloud_entry CC rs) (zeros_with_ones 100 CC).
Proof.
  unfold cloud_entry.
  destruct (shuffle_spec (zeros_with_ones 100 CC) rs) as (Hp & _).
  apply (Permutation_in _ Hp). apply nth_In.
  rewrite shuffled_length. apply Nat.mod_upper_bound. discriminate.
Qed.

(** C4. When the cell looked up for a site is 0, [assess_weather]
    reports the site as not obscured (its cloud signal is [True]),
    whatever the random state is. *)
Theorem assess_weather_cloud_free {E : External} (s : site) (w : World) (cell : Q) :
  cloud_lookup w s = Ok cell ->
  (cell == 0)%Q ->
  outcome (assess_weather s) w = Ok (daylight w s, true).
Proof.
  intros Hcell H0. unfold outcome. rewrite assess_weather_run, Hcell. cbn [fst].
  assert (HCC : percent cell = 0)
    by (apply percent_of_ok, cloud_percent_zero; exact H0).
  rewrite HCC.
  pose proof (cloud_entry_In 0 (np_random w)) as Hin.
  change (zeros_with_ones 100 0) with (repeat 0 100) in Hin.
  apply repeat_spec in Hin. rewrite Hin. reflexivity.
Qed.

Lemma assess_weather_cloud_free_witness :
  outcome (assess_weather Scenario.site_A) (Scenario.the_world 0 true 738000)
  = Ok (false, true).
Proof.
  apply (assess_weather_cloud_free Scenario.site_A
           (Scenario.the_world 0 true 738000) 0%Q); reflexivity.
Defined.

(** C5. When the cell looked up for a site is 1, [assess_weather]
    reports the site as obscured (its cloud signal is [False]),
    whatever the random state is. *)
Theorem assess_weather_overcast {E : External} (s : site) (w : World) (cell : Q) :
  cloud_lookup w s = Ok cell ->
  (cell == 1)%Q ->
  outcome (assess_weather s) w = Ok (daylight w s, false).
Proof.
  intros Hcell H1. unfold outcome. rewrite assess_weather_run, Hcell. cbn [fst].
  assert (HCC : percent cell = 100)
    by (apply percent_of_ok, cloud_percent_one; exact H1).
  rewrite HCC.
  pose proof (cloud_entry_In 100 (np_random w)) as Hin.
  change (zeros_with_ones 100 100) with (repeat 1 100 ++ []) in Hin.
  rewrite app_nil_r in Hin.
  apply repeat_spec in Hin. rewrite Hin. reflexivity.
Qed.

Lemma assess_weather_overcast_witness :
  outcome (assess_weather Scenario.site_A) (Scenario.the_world 1 true 738000)
  = Ok (false, false).
Proof.
  apply (assess_weather_overcast Scenario.site_A
           (Scenario.the_world 1 true 738000) 1%Q); reflexivity.
Defined.

Lemma shuffle_with_draw (CC : Z) (rs : RandomState) (v : nat) :
  fst (shuffle (zeros_with_ones 100 CC) (with_draw rs choice_draw v)) =
  fst (shuffle (zeros_with_ones 100 CC) rs).
Proof.
  unfold shuffle. rewrite zeros_with_ones_length.
  apply shuffle_loop_ext; [reflexivity|].
  intros n Hn. cbn [draws pos with_draw] in *. unfold choice_draw.
  destruct (Nat.eqb_spec n (pos rs + 99)); [lia | reflexivity].
Qed.

(** With the choice draw set to [v], the entry read is the one at [v]. *)
Lemma cloud_entry_with_draw (CC : Z) (rs : RandomState) (v : nat) :
  (v < 100)%nat ->
  cloud_entry CC (with_draw rs choice_draw v) =
  nth v (fst (shuffle (zeros_with_ones 100 CC) rs)) 0.
Proof.
  intros Hv. unfold cloud_entry. rewrite shuffle_with_draw.
  cbn [draws pos with_draw]. rewrite Nat.eqb_refl.
  rewrite Nat.mod_small by exact Hv. reflexivity.
Qed.

(** Whatever the shuffle did, as many of the 100 choice draws report
    obstruction as the indicator array has ones. *)
Lemma obstruction_probability_ones {E : External}
    (s : site) (w : World) (cell : Q) (rs : RandomState) :
  cloud_lookup w s = Ok cell ->
  obstruction_probability s w rs =
  Z.of_nat (slice_stop 100 (percent cell)) # 100.
Proof.
  intros Hcell. unfold obstruction_probability. do 2 f_equal.
  set (CC := percent cell).
  set (arr := fst (shuffle (zeros_with_ones 100 CC) rs)).
  rewrite (filter_ext_in _ (fun v => negb (nth v arr 0 =? 0))).
  - rewrite <- (shuffled_length CC rs) at 1. fold arr.
    rewrite (filter_nth_seq (fun c => negb (c =? 0)) arr).
    change (ones arr = slice_stop 100 CC).
    rewrite <- ones_zeros_with_ones. apply ones_Permutation.
    apply shuffle_spec.
  - intros v Hv. apply in_seq in Hv.
    unfold reports_obstruction, outcome.
    rewrite assess_weather_run, cloud_lookup_set_np_random, Hcell.
    cbn [fst np_random set_np_random]. fold CC.
    rewrite cloud_entry_with_draw by lia. fold arr.
    destruct (nth v arr 0 =? 0); reflexivity.
Qed.

Lemma expectation_constant {A : Type} (dist : list (Q * A)) (f : A -> Q) (c : Q) :
  (forall a, f a = c) -> (expectation dist f == total_weight dist * c)%Q.
Proof.
  intros Hf. induction dist as [|[p a] dist IH]; cbn [expectation total_weight fold_right fst snd].
  - ring.
  - fold (expectation dist f). fold (total_weight dist).
    rewrite IH, Hf. ring.
Qed.

(** C2. When the cell looked up for a site is a fraction in [0, 1],
    [round(fraction * 100)], computed in floating point as the code
    computes it, is an integer [CC] from 0 to 100, and the probability
    that [assess_weather] reports obstruction is [CC / 100]: for every
    distribution of the draws the shuffle takes, with the index of
    [choice] uniform on its 100 values. *)
Theorem cloud_obstruction_probability_is_rounded_fraction {E : External}
    (s : site) (w : World) (fraction : Q) (dist : list (Q * RandomState)) :
  cloud_lookup w s = Ok fraction ->
  (0 <= fraction)%Q -> (fraction <= 1)%Q ->
  (total_weight dist == 1)%Q ->
  exists CC,
    round_float (float_mul fraction 100) = Ok CC /\
    0 <= CC <= 100 /\
    (marginal_obstruction_probability s w dist == inject_Z CC / 100)%Q.
Proof.
  intros Hcell H0 H1 Hdist.
  destruct (cloud_percent_range fraction H0 H1) as (CC & HCC & Hr).
  exists CC. split; [exact HCC|]. split; [exact Hr|].
  unfold marginal_obstruction_probability.
  rewrite (expectation_constant dist _ (CC # 100)).
  - rewrite Hdist. rewrite (Qmake_Qdiv CC 100).
    rewrite Qmult_1_l. reflexivity.
  - intros rs. rewrite (obstruction_probability_ones s w fraction rs Hcell).
    rewrite (percent_of_ok fraction CC HCC).
    rewrite slice_stop_in_range by (change (Z.of_nat 100) with 100; lia).
    rewrite Z2Nat.id by lia. reflexivity.
Qed.

(** The cell is the double written 0.155: times 100 it is the double
    15.5, which rounds to 16. *)
Lemma cloud_obstruction_probability_is_rounded_fraction_witness :
  (marginal_obstruction_probability Scenario.site_A
     (Scenario.the_world (5584463537939415 # 36028797018963968) true 738000)
     [(1 # 2, Scenario.rng); (1 # 2, advance Scenario.rng 5)]
   == inject_Z 16 / 100)%Q.
Proof.
  destruct (cloud_obstruction_probability_is_rounded_fraction Scenario.site_A
              (Scenario.the_world (5584463537939415 # 36028797018963968) true 738000)
              (5584463537939415 # 36028797018963968)
              [(1 # 2, Scenario.rng); (1 # 2, advance Scenario.rng 5)])
    as (CC & HCC & _ & Hm).
  - vm_compute. reflexivity.
  - discriminate.
  - discriminate.
  - reflexivity.
  - vm_compute in HCC. injection HCC as <-. exact Hm.
Defined.

(** *** The catalog lookup *)

(** Without a matching line the loop counts every line. *)
Lemma find_label_absent (sat_ : string) (TLEs : list string) :
  forall i, ~ In sat_ TLEs -> find_label TLEs sat_ i = (i + length TLEs)%nat.
Proof.
  induction TLEs as [|x rest IH]; intros i Hnot; cbn [find_label length].
  - lia.
  - destruct (String.eqb_spec x sat_) as [Heq|Hne].
    + exfalso. apply Hnot. now left.
    + rewrite IH; [lia|]. intros Hin. apply Hnot. now right.
Qed.

Lemma getitem_past_the_end {A : Type} (l : list A) (i : nat) :
  (length l <= i)%nat -> getitem l i = Raise list_index_out_of_range.
Proof.
  intros H. unfold getitem.
  now rewrite (proj2 (nth_error_None l i) H).
Qed.

(** C6, as the code has it. When the configured identifier equals no
    line of the catalog (trailing white space stripped),
    [get_orbit_predictor] raises Python's [IndexError] for the read of
    [TLEs[i+1]] past the end of the list, before it builds a predictor;
    [__init__] then ends with an exception, the same [IndexError] when
    the weather file could be read, and no [Schedule] object results. *)
Theorem unknown_satellite_raises_index_error {E : External}
    (fs : FileSystem) (id : nat) (lat_ lon_ : coord) (st : SimState)
    (config_ : Config) (parameters_ : Parameters) (deployment_days_ : opaque)
    (lines : list string) :
  text_file fs (path_join (input_directory parameters_) (TLE_file config_))
    = Some lines ->
  ~ In (TLE_label config_) (map rstrip lines) ->
  get_orbit_predictor fs (input_directory parameters_) (TLE_file config_)
    (TLE_label config_) = Raise list_index_out_of_range /\
  (exists e, init fs id lat_ lon_ st config_ parameters_ deployment_days_ = Raise e) /\
  (forall cloud,
     netcdf_tcc fs (path_join (input_directory parameters_) (weather_file parameters_))
       = Some cloud ->
     init fs id lat_ lon_ st config_ parameters_ deployment_days_
       = Raise list_index_out_of_range).
Proof.
  intros Hfile Hnot.
  assert (Hp : get_orbit_predictor fs (input_directory parameters_)
                 (TLE_file config_) (TLE_label config_)
               = Raise list_index_out_of_range).
  { unfold get_orbit_predictor. rewrite Hfile.
    rewrite (find_label_absent _ _ 0%nat Hnot).
    rewrite getitem_past_the_end by lia. reflexivity. }
  split; [exact Hp|]. split.
  - unfold init. destruct (netcdf_tcc _ _).
    + rewrite Hp. eexists; reflexivity.
    + eexists; reflexivity.
  - intros cloud Hcloud. unfold init. rewrite Hcloud, Hp. reflexivity.
Qed.

Lemma unknown_satellite_raises_index_error_witness :
  init (E := Scenario.external) (Scenario.files 0) 1 0 0 (Scenario.sim_state 738000)
       (mkConfig "SENTINEL-5P" "tle.txt") (Scenario.params true) ""%string
  = Raise list_index_out_of_range.
Proof.
  refine (proj2 (proj2 (unknown_satellite_raises_index_error
            (E := Scenario.external) (Scenario.files 0) 1%nat 0 0 (Scenario.sim_state 738000)
            (mkConfig "SENTINEL-5P" "tle.txt") (Scenario.params true) ""%string
            Scenario.catalog eq_refl _)) [[[0%Q]]] eq_refl).
  vm_compute. intros [H|[H|[H|[]]]]; discriminate H.
Defined.

(** C6, as the specification has it, fails: for an identifier that is
    no line of the catalog the exception raised is [IndexError: list
    index out of range], not an identifier-not-found error; a catalog
    that has the identifier but is cut after the first element line
    raises the very same exception. *)
Lemma unknown_satellite_error_does_not_name_the_identifier :
  ~ In "SENTINEL-5P"%string (map rstrip Scenario.catalog) /\
  exists e,
    init (E := Scenario.external) (Scenario.files 0) 1 0 0 (Scenario.sim_state 738000)
         (mkConfig "SENTINEL-5P" "tle.txt") (Scenario.params true) ""%string
      = Raise e /\
    ~ identifier_not_found_error e /\
    In "GHGSAT-D"%string (map rstrip Scenario.short_catalog) /\
    init (E := Scenario.external) (Scenario.files 0) 1 0 0 (Scenario.sim_state 738000)
         (mkConfig "GHGSAT-D" "short.txt") (Scenario.params true) ""%string
      = Raise e.
Proof.
  split.
  - vm_compute. intros [H|[H|[H|[]]]]; discriminate H.
  - exists list_index_out_of_range. repeat split.
    + intros [H|H]; discriminate H.
    + left. reflexivity.
Qed.

(* ------------------------------------------------------------------ *)
(** ** Properties of the company schedule *)

(** C10. The operations of the company schedule pass their arguments
    through: [get_due_sites] and [get_crew_site_list] return the site
    pool they are given, and [get_working_crews] returns [n_crews]
    whatever the site pool is. *)
Theorem company_schedule_passes_through {E : External} {crew : Type}
    (sched : OrbitCompany.Schedule) (site_pool : list site)
    (crew_num n_crews : Z) (crews : option (list crew)) :
  OrbitCompany.get_due_sites sched site_pool = site_pool /\
  OrbitCompany.get_crew_site_list sched site_pool crew_num n_crews crews = site_pool /\
  OrbitCompany.get_working_crews sched site_pool n_crews = n_crews.
Proof. repeat split. Qed.


(* ------------------------------------------------------------------ *)
(** ** Further properties: the day as a whole *)

Lemma subseq_refl {A : Type} (l : list A) : subseq l l.
Proof. induction l; constructor; assumption. Qed.

Lemma subseq_map {A B : Type} (f : A -> B) (l1 l2 : list A) :
  subseq l1 l2 -> subseq (map f l1) (map f l2).
Proof. induction 1; cbn [map]; constructor; assumption. Qed.

Lemma subseq_length {A : Type} (l1 l2 : list A) :
  subseq l1 l2 -> (length l1 <= length l2)%nat.
Proof. induction 1; cbn [length]; lia. Qed.

Lemma subseq_In {A : Type} (l1 l2 : list A) (x : A) :
  subseq l1 l2 -> In x l1 -> In x l2.
Proof.
  induction 1; cbn [In]; intros Hin; auto.
  destruct Hin; auto.
Qed.

Lemma filter_subseq {A : Type} (f : A -> bool) (l : list A) : subseq (filter f l) l.
Proof.
  induction l as [|x l IH]; cbn [filter]; [constructor|].
  destruct (f x); constructor; assumption.
Qed.


Lemma planned_set_np_random {E : External} (w : World) (rs' : RandomState)
    (viewable : list site) :
  forall rs, planned (set_np_random rs' w) rs viewable = planned w rs viewable.
Proof.
  induction viewable as [|s rest IH]; intros rs; cbn [planned]; [reflexivity|].
  change (eligible (set_np_random rs' w) rs s) with (eligible w rs s).
  now rewrite IH.
Qed.

(** The loop of [start_day], when the grid has a cell for every site. *)
Lemma plan_loop_run {E : External} (viewable : list site) :
  forall (plans : list plan) (w : World),
    (forall s, In s viewable -> exists cell, cloud_lookup w s = Ok cell) ->
    plan_loop viewable plans w =
    (Ok (plans ++ map plan_visit (planned w (np_random w) viewable)),
     set_np_random (advance (np_random w) (100 * length viewable)) w).
Proof.
  induction viewable as [|s rest IH]; intros plans w Hok.
  - cbn [plan_loop planned map length]. unfold ret. rewrite app_nil_r.
    destruct w as [sf st [d p]]. unfold set_np_random, advance. cbn.
    repeat f_equal. lia.
  - cbn [plan_loop planned]. unfold bind at 1. rewrite assess_weather_run.
    destruct (Hok s (or_introl eq_refl)) as [cell Hcell].
    unfold eligible. rewrite Hcell.
    unfold bind, read. cbn [self set_np_random].
    assert (Hrest : forall s', In s' rest ->
              exists c, cloud_lookup (set_np_random (advance (np_random w) 100) w) s'
                        = Ok c)
      by (intros s' Hs'; apply Hok; now right).
    destruct ((daylight w s && (cloud_entry (percent cell) (np_random w) =? 0))
              || negb (consider_weather (parameters (self w))));
      rewrite (IH _ _ Hrest); cbn [np_random set_np_random map length];
      rewrite ?advance_advance, <- ?app_assoc; cbn [app];
      rewrite planned_set_np_random;
      replace (100 + 100 * length rest)%nat with (100 * S (length rest))%nat by lia;
      reflexivity.
Qed.



Lemma for_each_assess_weather_ignores_consider_weather {E : External}
    (viewable : list site) (b : bool) :
  forall (w : World),
    np_random (world_after (for_each assess_weather viewable) (set_consider_weather b w))
    = np_random (world_after (for_each assess_weather viewable) w).
Proof.
  induction viewable as [|s rest IH]; intros w; [reflexivity|].
  unfold world_after in *. cbn [for_each]. unfold bind.
  rewrite !assess_weather_run.
  change (cloud_lookup (set_consider_weather b w) s) with (cloud_lookup w s).
  destruct (cloud_lookup w s) as [cell|e]; [|reflexivity].
  apply (IH (set_np_random (advance (np_random w) 100) w)).
Qed.

Lemma start_day_world {E : External} (site_pool viewable : list site) (w : World) :
  outcome (calc_viewable_sites site_pool) w = Ok viewable ->
  np_random (world_after (start_day site_pool) w) =
  np_random (world_after (for_each assess_weather viewable) (day_started w)).
Proof.
  intros Hv. unfold world_after at 1. rewrite start_day_run, Hv.
  destruct viewable as [|s rest]; [reflexivity|].
  change (snd (plan_loop (s :: rest) [] (day_started w)))
    with (world_after (plan_loop (s :: rest) []) (day_started w)).
  now rewrite plan_loop_steps.
Qed.

(** X2. What [start_day] takes from the random source does not depend
    on [consider_weather] or on which sites pass the weather test: the
    random state after the call is the one left by calling
    [assess_weather] once for each viewable site, in order, and it is
    the same with weather considered and with weather not considered. *)
Theorem start_day_random_state_ignores_weather_setting {E : External}
    (site_pool viewable : list site) (w : World) :
  outcome (calc_viewable_sites site_pool) w = Ok viewable ->
  np_random (world_after (start_day site_pool) w) =
    np_random (world_after (for_each assess_weather viewable) (day_started w)) /\
  np_random (world_after (start_day site_pool) (set_consider_weather true w)) =
    np_random (world_after (start_day site_pool) (set_consider_weather false w)).
Proof.
  intros Hv. split; [exact (start_day_world site_pool viewable w Hv)|].
  assert (Hb : forall b,
             outcome (calc_viewable_sites site_pool) (set_consider_weather b w)
             = Ok viewable).
  { intros b. rewrite <- Hv. unfold outcome.
    rewrite !calc_viewable_sites_run. reflexivity. }
  rewrite (start_day_world site_pool viewable _ (Hb true)).
  rewrite (start_day_world site_pool viewable _ (Hb false)).
  change (day_started (set_consider_weather true w))
    with (set_consider_weather true (day_started w)).
  change (day_started (set_consider_weather false w))
    with (set_consider_weather false (day_started w)).
  now rewrite !for_each_assess_weather_ignores_consider_weather.
Qed.

Lemma start_day_random_state_ignores_weather_setting_witness :
  np_random (world_after (start_day [Scenario.site_A; Scenario.site_B; Scenario.site_A])
               (set_consider_weather true (Scenario.the_world (3 # 10) true 738000)))
  = np_random (world_after (start_day [Scenario.site_A; Scenario.site_B; Scenario.site_A])
                 (set_consider_weather false (Scenario.the_world (3 # 10) true 738000))).
Proof.
  exact (proj2 (start_day_random_state_ignores_weather_setting
                  [Scenario.site_A; Scenario.site_B; Scenario.site_A]
                  [Scenario.site_A; Scenario.site_A]
                  (Scenario.the_world (3 # 10) true 738000) eq_refl)).
Defined.

Lemma planned_none {E : External} (w : World) (viewable : list site) :
  (forall s rs, In s viewable -> eligible w rs s = false) ->
  forall rs, planned w rs viewable = [].
Proof.
  induction viewable as [|s rest IH]; intros Hno rs; cbn [planned]; [reflexivity|].
  rewrite (Hno s rs (or_introl eq_refl)).
  apply IH. intros s' rs' Hs'. apply Hno. now right.
Qed.

Lemma planned_all {E : External} (w : World) (viewable : list site) :
  (forall s rs, In s viewable -> eligible w rs s = true) ->
  forall rs, planned w rs viewable = viewable.
Proof.
  induction viewable as [|s rest IH]; intros Hall rs; cbn [planned]; [reflexivity|].
  rewrite (Hall s rs (or_introl eq_refl)). f_equal.
  apply IH. intros s' rs' Hs'. apply Hall. now right.
Qed.

(** [start_day] in terms of the sites that pass its test. *)
Lemma start_day_outcome {E : External} (site_pool viewable : list site) (w : World) :
  outcome (calc_viewable_sites site_pool) w = Ok viewable ->
  (forall s, In s viewable -> exists cell, cloud_lookup w s = Ok cell) ->
  outcome (start_day site_pool) w =
  Ok (map plan_visit (planned (day_started w) (np_random w) viewable)).
Proof.
  intros Hv Hok. unfold outcome. rewrite start_day_run, Hv.
  destruct viewable as [|s rest]; [reflexivity|].
  rewrite plan_loop_run by exact Hok. reflexivity.
Qed.



(** X4. With weather considered, when the cell of every viewable site
    is 1 the itinerary is empty, for every random state and whatever
    the daylight hours are. *)
Theorem start_day_plans_nothing_under_full_cloud {E : External}
    (site_pool viewable : list site) (w : World) :
  consider_weather (parameters (self w)) = true ->
  outcome (calc_viewable_sites site_pool) w = Ok viewable ->
  (forall s, In s viewable -> exists cell, cloud_lookup w s = Ok cell /\ (cell == 1)%Q) ->
  outcome (start_day site_pool) w = Ok [].
Proof.
  intros Hcw Hv Hcells.
  assert (Hok : forall s, In s viewable -> exists cell, cloud_lookup w s = Ok cell).
  { intros s Hin. destruct (Hcells s Hin) as (cell & Hc & _). now exists cell. }
  rewrite (start_day_outcome site_pool viewable w Hv Hok).
  rewrite planned_none; [reflexivity|].
  intros s rs Hin. unfold eligible.
  change (cloud_lookup (day_started w) s) with (cloud_lookup w s).
  destruct (Hcells s Hin) as (cell & -> & H1).
  change (consider_weather (parameters (self (day_started w))))
    with (consider_weather (parameters (self w))).
  rewrite Hcw. cbn [negb]. rewrite orb_false_r.
  assert (HCC : percent cell = 100)
    by (apply percent_of_ok, cloud_percent_one; exact H1).
  rewrite HCC.
  pose proof (cloud_entry_In 100 rs) as Hin1.
  change (zeros_with_ones 100 100) with (repeat 1 100 ++ []) in Hin1.
  rewrite app_nil_r in Hin1. apply repeat_spec in Hin1. rewrite Hin1.
  apply andb_false_r.
Qed.

Lemma start_day_plans_nothing_under_full_cloud_witness :
  outcome (start_day [polar_site]) (polar_world 1 true) = Ok [].
Proof.
  apply (start_day_plans_nothing_under_full_cloud
           [polar_site] [polar_site] (polar_world 1 true)).
  - reflexivity.
  - reflexivity.
  - intros s _. exists 1%Q. split; reflexivity.
Defined.

(** X5. With weather considered, when the cell of every viewable site
    is 0 and hour 1 is within its sunrise-to-sunset hours, every
    viewable site is planned, in order, for every random state. *)
Theorem start_day_plans_all_in_clear_daylight {E : External}
    (site_pool viewable : list site) (w : World) :
  consider_weather (parameters (self w)) = true ->
  outcome (calc_viewable_sites site_pool) w = Ok viewable ->
  (forall s, In s viewable -> exists cell, cloud_lookup w s = Ok cell /\ (cell == 0)%Q) ->
  (forall s, In s viewable -> daylight (day_started w) s = true) ->
  outcome (start_day site_pool) w = Ok (map plan_visit viewable).
Proof.
  intros Hcw Hv Hcells Hday.
  assert (Hok : forall s, In s viewable -> exists cell, cloud_lookup w s = Ok cell).
  { intros s Hin. destruct (Hcells s Hin) as (cell & Hc & _). now exists cell. }
  rewrite (start_day_outcome site_pool viewable w Hv Hok).
  rewrite planned_all; [reflexivity|].
  intros s rs Hin. unfold eligible.
  change (cloud_lookup (day_started w) s) with (cloud_lookup w s).
  destruct (Hcells s Hin) as (cell & -> & H0).
  rewrite (Hday s Hin).
  assert (HCC : percent cell = 0)
    by (apply percent_of_ok, cloud_percent_zero; exact H0).
  rewrite HCC.
  pose proof (cloud_entry_In 0 rs) as Hin0.
  change (zeros_with_ones 100 0) with (repeat 0 100) in Hin0.
  apply repeat_spec in Hin0. rewrite Hin0. reflexivity.
Qed.

Lemma start_day_plans_all_in_clear_daylight_witness :
  outcome (start_day [polar_site; polar_site]) (polar_world 0 true)
  = Ok [plan_visit polar_site; plan_visit polar_site].
Proof.
  apply (start_day_plans_all_in_clear_daylight
           [polar_site; polar_site] [polar_site; polar_site] (polar_world 0 true)).
  - reflexivity.
  - reflexivity.
  - intros s _. exists 0%Q. split; reflexivity.
  - intros s _. reflexivity.
Defined.

(** X6. A day on which nothing is viewable (an empty pool among them):
    [start_day] returns the empty itinerary without an error, sets
    [worked_today] to [False], and takes no draw from the random state. *)
Theorem start_day_with_nothing_viewable {E : External}
    (site_pool : list site) (w : World) :
  length (sat_date (self w)) = length (orbit_path (self w)) ->
  viewable_today w site_pool = [] ->
  outcome (start_day site_pool) w = Ok [] /\
  worked_today (self (world_after (start_day site_pool) w)) = Some false /\
  np_random (world_after (start_day site_pool) w) = np_random w.
Proof.
  intros Hlen Hnone.
  assert (Hv : outcome (calc_viewable_sites site_pool) w = Ok []).
  { unfold outcome. rewrite (calc_viewable_sites_parallel site_pool w Hlen).
    cbn [fst]. now rewrite Hnone. }
  unfold outcome, world_after. rewrite start_day_run, Hv.
  repeat split.
Qed.

Lemma start_day_with_nothing_viewable_witness :
  outcome (start_day []) (Scenario.the_world (3 # 10) true 738000) = Ok [] /\
  worked_today (self (world_after (start_day [])
                        (Scenario.the_world (3 # 10) true 738000))) = Some false /\
  np_random (world_after (start_day []) (Scenario.the_world (3 # 10) true 738000))
    = Scenario.rng.
Proof.
  apply (start_day_with_nothing_viewable []
           (Scenario.the_world (3 # 10) true 738000)); reflexivity.
Defined.

(** The loop stops at the first site whose cell is missing. *)
Lemma plan_loop_raises {E : External} (before : list site) (s : site)
    (rest : list site) (e : exception) :
  forall (plans : list plan) (w : World),
    (forall s', In s' before -> exists cell, cloud_lookup w s' = Ok cell) ->
    cloud_lookup w s = Raise e ->
    plan_loop (before ++ s :: rest) plans w =
    (Raise e, set_np_random (advance (np_random w) (100 * length before)) w).
Proof.
  induction before as [|b before IH]; intros plans w Hok Hbad.
  - cbn [app plan_loop length]. unfold bind at 1.
    rewrite assess_weather_run, Hbad.
    destruct w as [sf st [d p]]. unfold set_np_random, advance. cbn.
    repeat f_equal. lia.
  - cbn [app plan_loop]. unfold bind at 1. rewrite assess_weather_run.
    destruct (Hok b (or_introl eq_refl)) as [cell Hcell]. rewrite Hcell.
    unfold bind, read.
    assert (Hrest : forall s', In s' before ->
              exists c, cloud_lookup (set_np_random (advance (np_random w) 100) w) s'
                        = Ok c)
      by (intros s' Hs'; apply Hok; now right).
    destruct ((_ && _) || _);
      rewrite (IH _ _ Hrest Hbad); cbn [np_random set_np_random length];
      rewrite advance_advance;
      replace (100 + 100 * length before)%nat with (100 * S (length before))%nat by lia;
      reflexivity.
Qed.

(** The calls stop at the first site whose cell is missing. *)
Lemma for_each_assess_weather_raises {E : External} (before : list site) (s : site)
    (rest : list site) (e : exception) :
  forall (w : World),
    (forall s', In s' before -> exists cell, cloud_lookup w s' = Ok cell) ->
    cloud_lookup w s = Raise e ->
    for_each assess_weather (before ++ s :: rest) w =
    (Raise e, world_after (for_each assess_weather before) w).
Proof.
  induction before as [|b before IH]; intros w Hok Hbad.
  - cbn [app for_each]. unfold bind, world_after, ret.
    rewrite assess_weather_run, Hbad. reflexivity.
  - cbn [app for_each]. unfold world_after, bind. rewrite assess_weather_run.
    destruct (Hok b (or_introl eq_refl)) as [cell Hcell]. rewrite Hcell.
    apply (IH (set_np_random (advance (np_random w) 100) w)).
    + intros s' Hs'. apply Hok. now right.
    + exact Hbad.
Qed.

(** X7. When [assess_weather] raises for one of the viewable sites (the
    cloud grid has no cell for it), [start_day] raises that exception
    and returns no itinerary, not even for the sites assessed before
    it; by then the clock is at hour 1, the random state is the one
    left by the calls of [assess_weather] for the earlier sites, and
    [worked_today] is as it was. *)
Theorem start_day_raises_on_missing_cell {E : External}
    (site_pool before rest : list site) (s : site) (e : exception) (w : World) :
  outcome (calc_viewable_sites site_pool) w = Ok (before ++ s :: rest) ->
  (forall s', In s' before -> exists cell, cloud_lookup w s' = Ok cell) ->
  cloud_lookup w s = Raise e ->
  outcome (start_day site_pool) w = Raise e /\
  hour (current_date (t (state (world_after (start_day site_pool) w)))) = 1 /\
  np_random (world_after (start_day site_pool) w)
    = np_random (world_after (for_each assess_weather before) (day_started w)) /\
  worked_today (self (world_after (start_day site_pool) w)) = worked_today (self w).
Proof.
  intros Hv Hok Hbad.
  split; [|split; [apply start_day_hour|split]].
  - unfold outcome. rewrite start_day_run, Hv.
    destruct (before ++ s :: rest) as [|x l] eqn:Hl;
      [destruct before; discriminate Hl|].
    rewrite <- Hl, (plan_loop_raises before s rest e [] (day_started w) Hok Hbad).
    reflexivity.
  - rewrite (start_day_world site_pool _ w Hv).
    unfold world_after at 1.
    rewrite (for_each_assess_weather_raises before s rest e (day_started w) Hok Hbad).
    reflexivity.
  - rewrite start_day_worked_today, Hv.
    destruct (before ++ s :: rest) as [|x l] eqn:Hl;
      [destruct before; discriminate Hl | reflexivity].
Qed.

(** Site A is assessed, then site C has no cell: nothing is returned,
    and the random state is the one after the call for site A. *)
Lemma start_day_raises_on_missing_cell_witness :
  outcome (start_day [Scenario.site_B; Scenario.site_A; site_C; Scenario.site_A])
          (gap_world false)
    = Raise index_out_of_bounds /\
  np_random (world_after
               (start_day [Scenario.site_B; Scenario.site_A; site_C; Scenario.site_A])
               (gap_world false))
    = np_random (world_after (for_each assess_weather [Scenario.site_A])
                             (day_started (gap_world false))).
Proof.
  destruct (start_day_raises_on_missing_cell
              [Scenario.site_B; Scenario.site_A; site_C; Scenario.site_A]
              [Scenario.site_A] [Scenario.site_A] site_C
              index_out_of_bounds (gap_world false) eq_refl)
    as (Ho & _ & Hr & _).
  - intros s' [<-|[]]. exists 0%Q. reflexivity.
  - reflexivity.
  - split; [exact Ho | exact Hr].
Defined.

Lemma for_each_assess_weather_random {E : External} (viewable : list site) :
  forall (w : World),
    draws (np_random (world_after (for_each assess_weather viewable) w))
      = draws (np_random w) /\
    (pos (np_random w)
       <= pos (np_random (world_after (for_each assess_weather viewable) w)))%nat.
Proof.
  induction viewable as [|s rest IH]; intros w; [split; [reflexivity|apply Nat.le_refl]|].
  unfold world_after in *. cbn [for_each]. unfold bind.
  rewrite assess_weather_run.
  destruct (cloud_lookup w s) as [cell|e]; [|split; [reflexivity|apply Nat.le_refl]].
  destruct (IH (set_np_random (advance (np_random w) 100) w)) as [Hd Hp].
  split; [rewrite Hd; reflexivity|].
  cbn [np_random set_np_random advance pos] in Hp. lia.
Qed.

(** X8. What [start_day] leaves alone, on every pool and every world,
    also when it raises: the ground track table, the cloud grid and the
    parameters of the schedule, the date, the minutes and seconds of the
    clock, the time step and the weather axes, and the sequence of raw
    draws. Only the hour, [worked_today] and the cursor of the random
    state can differ afterwards. *)
Theorem start_day_frame {E : External} (site_pool : list site) (w : World) :
  let w' := world_after (start_day site_pool) w in
  (self w' = self w \/ self w' = self (set_worked_today false w)) /\
  sat_date (self w') = sat_date (self w) /\
  orbit_path (self w') = orbit_path (self w) /\
  cloudcover (self w') = cloudcover (self w) /\
  parameters (self w') = parameters (self w) /\
  state w' = state (day_started w) /\
  date (current_date (t (state w'))) = date (current_date (t (state w))) /\
  minute (current_date (t (state w'))) = minute (current_date (t (state w))) /\
  second (current_date (t (state w'))) = second (current_date (t (state w))) /\
  current_timestep (t (state w')) = current_timestep (t (state w)) /\
  weather (state w') = weather (state w) /\
  draws (np_random w') = draws (np_random w) /\
  (pos (np_random w) <= pos (np_random w'))%nat.
Proof.
  intros w'.
  assert (Hself : self w' = self w \/ self w' = self (set_worked_today false w)).
  { subst w'. unfold world_after. rewrite start_day_run.
    destruct (outcome (calc_viewable_sites site_pool) w) as [[|s rest]|e].
    - right; reflexivity.
    - left. apply (plan_loop_frame (s :: rest) [] (day_started w)).
    - left; reflexivity. }
  assert (Hstate : state w' = state (day_started w)).
  { subst w'. unfold world_after. rewrite start_day_run.
    destruct (outcome (calc_viewable_sites site_pool) w) as [[|s rest]|e];
      try reflexivity.
    apply (plan_loop_frame (s :: rest) [] (day_started w)). }
  assert (Hrandom : draws (np_random w') = draws (np_random w) /\
                    (pos (np_random w) <= pos (np_random w'))%nat).
  { subst w'. unfold world_after. rewrite start_day_run.
    destruct (outcome (calc_viewable_sites site_pool) w) as [[|s rest]|e];
      try (split; [reflexivity|apply Nat.le_refl]).
    change (snd (plan_loop (s :: rest) [] (day_started w)))
      with (world_after (plan_loop (s :: rest) []) (day_started w)).
    rewrite plan_loop_steps.
    apply (for_each_assess_weather_random (s :: rest) (day_started w)). }
  split; [exact Hself|].
  rewrite Hstate.
  destruct Hrandom as [Hd Hp].
  destruct Hself as [-> | ->]; repeat split; auto.
Qed.

(* ------------------------------------------------------------------ *)
(** ** Further properties: the clock *)

Lemma split_minutes (T : Z) : (T mod 1440) / 60 * 60 + T mod 60 = T mod 1440.
Proof.
  assert (H : T mod 60 = (T mod 1440) mod 60).
  { rewrite (Z.div_mod T 1440) at 1 by lia.
    replace (1440 * (T / 1440) + T mod 1440)
      with (T mod 1440 + (24 * (T / 1440)) * 60) by lia.
    apply Z.mod_add. lia. }
  rewrite H.
  pose proof (Z.div_mod (T mod 1440) 60). lia.
Qed.

Lemma carry_days (T b : Z) : T / 1440 + (T mod 1440 + b) / 1440 = (T + b) / 1440.
Proof.
  rewrite (Z.div_mod T 1440) at 3 by lia.
  replace (1440 * (T / 1440) + T mod 1440 + b)
    with ((T mod 1440 + b) + (T / 1440) * 1440) by lia.
  rewrite Z.div_add by lia. lia.
Qed.

Lemma carry_mod_1440 (T b : Z) : (T mod 1440 + b) mod 1440 = (T + b) mod 1440.
Proof. rewrite Zplus_mod_idemp_l. reflexivity. Qed.

Lemma carry_mod_60 (T b : Z) : (T mod 1440 + b) mod 60 = (T + b) mod 60.
Proof.
  rewrite (Z.div_mod T 1440) at 2 by lia.
  replace (1440 * (T / 1440) + T mod 1440 + b)
    with ((T mod 1440 + b) + (24 * (T / 1440)) * 60) by lia.
  symmetry. apply Z.mod_add. lia.
Qed.

Lemma add_minutes_in_range (d : datetime) (m : Z) :
  min_ordinal <= ordinal_after d m <= max_ordinal ->
  add_minutes d m =
  Ok (mkDatetime (ordinal_after d m)
        (((hour d * 60 + minute d + m) mod 1440) / 60)
        ((hour d * 60 + minute d + m) mod 60)
        (second d) (microsecond d)).
Proof.
  intros [Hlo Hhi]. unfold add_minutes, ordinal_after in *.
  apply Z.leb_le in Hlo. apply Z.leb_le in Hhi.
  cbv zeta. rewrite Hlo, Hhi. reflexivity.
Qed.

Lemma add_minutes_out_of_range (d : datetime) (m : Z) :
  ~ (min_ordinal <= ordinal_after d m <= max_ordinal) ->
  add_minutes d m = Raise date_value_out_of_range.
Proof.
  intros Hout. unfold add_minutes, ordinal_after in *. cbv zeta.
  destruct (min_ordinal <=? _) eqn:Hlo; [|reflexivity].
  destruct (_ <=? max_ordinal) eqn:Hhi; [|reflexivity].
  apply Z.leb_le in Hlo. apply Z.leb_le in Hhi. exfalso. apply Hout. lia.
Qed.

Lemma update_schedule_run {E : External} (work_mins : Z) (w : World) :
  update_schedule work_mins w =
  match add_minutes (current_date (t (state w))) work_mins with
  | Ok d' => (Ok tt, set_current_date d' w)
  | Raise e => (Raise e, w)
  end.
Proof.
  unfold update_schedule, bind, read, lift, modify.
  destruct (add_minutes _ _); reflexivity.
Qed.

(** X9. [update_schedule] moves the clock by exactly [work_mins]
    minutes, carrying into the hour and the date, and keeps the seconds:
    when the date reached is a date Python has (ordinal 1 to 3652059) the
    call returns, the clock counts [work_mins] more minutes, its hour
    and minute are in range, and nothing but the clock is changed; when
    it is not, the call raises [OverflowError] and changes nothing. *)
Theorem update_schedule_advances_clock {E : External} (work_mins : Z) (w : World) :
  let d := current_date (t (state w)) in
  let w' := world_after (update_schedule work_mins) w in
  let d' := current_date (t (state w')) in
  (min_ordinal <= ordinal_after d work_mins <= max_ordinal ->
   outcome (update_schedule work_mins) w = Ok tt /\
   total_minutes d' = total_minutes d + work_mins /\
   normal_time d' /\
   second d' = second d /\ microsecond d' = microsecond d /\
   self w' = self w /\ np_random w' = np_random w /\
   weather (state w') = weather (state w) /\
   current_timestep (t (state w')) = current_timestep (t (state w))) /\
  (~ (min_ordinal <= ordinal_after d work_mins <= max_ordinal) ->
   outcome (update_schedule work_mins) w = Raise date_value_out_of_range /\
   w' = w).
Proof.
  intros d w' d'. subst d' w'. unfold outcome, world_after.
  rewrite update_schedule_run. fold d. split.
  - intros Hin. rewrite (add_minutes_in_range d work_mins Hin).
    cbn [fst snd set_current_date state t current_date self np_random weather
         current_timestep second microsecond].
    repeat split; try reflexivity.
    + unfold total_minutes, ordinal_after. cbn [ordinal hour minute].
      set (T := hour d * 60 + minute d + work_mins).
      pose proof (split_minutes T). pose proof (Z.div_mod T 1440). lia.
    + cbn [hour]. apply Z.div_pos; [|lia].
      apply Z.mod_pos_bound. lia.
    + cbn [hour]. apply Z.div_lt_upper_bound; [lia|].
      apply Z.mod_pos_bound. lia.
    + cbn [minute]. apply Z.mod_pos_bound. lia.
    + cbn [minute]. apply Z.mod_pos_bound. lia.
  - intros Hout. rewrite (add_minutes_out_of_range d work_mins Hout).
    split; reflexivity.
Qed.

(** 90 minutes after 20:30 on day 738000 it is 22:00. *)
Lemma update_schedule_advances_clock_witness :
  outcome (update_schedule 90) (polar_world 0 true) = Ok tt /\
  total_minutes (current_date (t (state (world_after (update_schedule 90)
                                                     (polar_world 0 true)))))
    = total_minutes (mkDatetime 738000 20 30 0 0) + 90.
Proof.
  destruct (proj1 (update_schedule_advances_clock 90 (polar_world 0 true)))
    as (Ho & Ht & _).
  - vm_compute. split; discriminate.
  - split; [exact Ho | exact Ht].
Defined.

(** X10. Two calls of [update_schedule] that both return leave the
    world that one call with the sum of the minutes leaves. *)
Theorem update_schedule_composes {E : External} (a b : Z) (w : World) :
  outcome (update_schedule a) w = Ok tt ->
  outcome (update_schedule b) (world_after (update_schedule a) w) = Ok tt ->
  update_schedule (a + b) w =
  (Ok tt, world_after (update_schedule b) (world_after (update_schedule a) w)).
Proof.
  unfold outcome, world_after. rewrite !update_schedule_run.
  set (d := current_date (t (state w))).
  intros Ha.
  destruct (Z_le_dec min_ordinal (ordinal_after d a)) as [Hlo|Hlo];
    [destruct (Z_le_dec (ordinal_after d a) max_ordinal) as [Hhi|Hhi]|].
  2,3: rewrite add_minutes_out_of_range in Ha by lia; discriminate Ha.
  rewrite (add_minutes_in_range d a (conj Hlo Hhi)) in *.
  cbn [fst snd set_current_date state t current_date].
  set (d1 := mkDatetime _ _ _ _ _).
  intros Hb.
  destruct (Z_le_dec min_ordinal (ordinal_after d1 b)) as [Hlo'|Hlo'];
    [destruct (Z_le_dec (ordinal_after d1 b) max_ordinal) as [Hhi'|Hhi']|].
  2,3: rewrite add_minutes_out_of_range in Hb by lia; discriminate Hb.
  rewrite (add_minutes_in_range d1 b (conj Hlo' Hhi')).
  assert (Ho : ordinal_after d (a + b) = ordinal_after d1 b).
  { unfold ordinal_after, d1. cbn [ordinal hour minute].
    rewrite split_minutes.
    pose proof (carry_days (hour d * 60 + minute d + a) b) as Hc.
    replace (hour d * 60 + minute d + a + b)
      with (hour d * 60 + minute d + (a + b)) in Hc by lia.
    unfold ordinal_after. lia. }
  rewrite add_minutes_in_range by (rewrite Ho; lia).
  cbn [fst snd set_current_date state t current_date self np_random weather
       current_timestep start_date end_date].
  rewrite Ho. unfold d1. cbn [ordinal hour minute second microsecond].
  assert (Hh : ((hour d * 60 + minute d + (a + b)) mod 1440) / 60 =
               (((hour d * 60 + minute d + a) mod 1440 / 60 * 60
                 + (hour d * 60 + minute d + a) mod 60 + b) mod 1440) / 60).
  { rewrite split_minutes, carry_mod_1440. do 2 f_equal. lia. }
  assert (Hm : (hour d * 60 + minute d + (a + b)) mod 60 =
               ((hour d * 60 + minute d + a) mod 1440 / 60 * 60
                + (hour d * 60 + minute d + a) mod 60 + b) mod 60).
  { rewrite split_minutes, carry_mod_60. f_equal. lia. }
  rewrite Hh, Hm. reflexivity.
Qed.

Lemma update_schedule_composes_witness :
  update_schedule (90 + 200) (polar_world 0 true) =
  (Ok tt, world_after (update_schedule 200)
            (world_after (update_schedule 90) (polar_world 0 true))).
Proof.
  apply (update_schedule_composes 90 200 (polar_world 0 true)); reflexivity.
Defined.

(** X11. With no minutes worked, as with the itineraries of this
    schedule, whose entries all have [LDAR_mins = 0], [update_schedule]
    leaves the world as it is. *)
Theorem update_schedule_zero_minutes {E : External} (w : World) :
  normal_time (current_date (t (state w))) ->
  min_ordinal <= ordinal (current_date (t (state w))) <= max_ordinal ->
  update_schedule 0 w = (Ok tt, w).
Proof.
  intros [Hh Hm] Ho. rewrite update_schedule_run.
  destruct w as [sf [[d ts sd ed] wt] rs].
  cbn [state t current_date] in *.
  destruct d as [o h mi sc us]. cbn [hour minute ordinal] in *.
  assert (Hrange : min_ordinal <= ordinal_after (mkDatetime o h mi sc us) 0
                   <= max_ordinal).
  { unfold ordinal_after. cbn [ordinal hour minute].
    replace ((h * 60 + mi + 0) / 1440) with 0; [lia|].
    symmetry. apply Z.div_small. lia. }
  rewrite (add_minutes_in_range _ 0 Hrange).
  unfold ordinal_after. cbn [ordinal hour minute second microsecond].
  unfold set_current_date. cbn.
  replace ((h * 60 + mi + 0) / 1440) with 0 by (symmetry; apply Z.div_small; lia).
  replace ((h * 60 + mi + 0) mod 1440 / 60) with h
    by (rewrite Z.mod_small by lia; symmetry;
        rewrite Z.add_0_r, Z.add_comm, Z.div_add by lia;
        rewrite Z.div_small by lia; reflexivity).
  replace ((h * 60 + mi + 0) mod 60) with mi
    by (symmetry; rewrite Z.add_0_r, Z.add_comm, Z.mod_add by lia;
        apply Z.mod_small; lia).
  rewrite Z.add_0_r. reflexivity.
Qed.

Lemma update_schedule_zero_minutes_witness :
  update_schedule 0 (polar_world 0 true) = (Ok tt, polar_world 0 true).
Proof.
  apply (update_schedule_zero_minutes (polar_world 0 true)).
  - unfold normal_time. cbn. lia.
  - unfold min_ordinal, max_ordinal. cbn. lia.
Defined.

(* ------------------------------------------------------------------ *)
(** ** Further properties: the visibility filter *)




(** X13. Whether a site is viewable does not depend on the rest of the
    pool: the result for two pools put end to end is the two results
    put end to end, and filtering a result again returns it unchanged. *)
Theorem calc_viewable_sites_per_site {E : External}
    (pool1 pool2 : list site) (w : World) :
  length (sat_date (self w)) = length (orbit_path (self w)) ->
  exists v1 v2,
    outcome (calc_viewable_sites pool1) w = Ok v1 /\
    outcome (calc_viewable_sites pool2) w = Ok v2 /\
    outcome (calc_viewable_sites (pool1 ++ pool2)) w = Ok (v1 ++ v2) /\
    outcome (calc_viewable_sites v1) w = Ok v1.
Proof.
  intros Hlen.
  exists (viewable_today w pool1), (viewable_today w pool2).
  unfold outcome. rewrite !(calc_viewable_sites_parallel _ w Hlen). cbn [fst].
  unfold viewable_today. repeat split.
  - now rewrite filter_app.
  - f_equal. set (f := covered_by _).
    induction pool1 as [|s rest IH]; [reflexivity|].
    cbn [filter]. destruct (f s) eqn:Hs; [|exact IH].
    cbn [filter]. rewrite Hs. now f_equal.
Qed.

Lemma calc_viewable_sites_per_site_witness :
  outcome (calc_viewable_sites ([Scenario.site_A; Scenario.site_B] ++ [Scenario.site_A]))
          (Scenario.the_world 0 true 738000)
  = Ok ([Scenario.site_A] ++ [Scenario.site_A]).
Proof.
  destruct (calc_viewable_sites_per_site [Scenario.site_A; Scenario.site_B]
              [Scenario.site_A] (Scenario.the_world 0 true 738000) eq_refl)
    as (v1 & v2 & H1 & H2 & H12 & _).
  injection H1 as <-. injection H2 as <-. exact H12.
Defined.

(** X14. A site is returned once for each of its occurrences in the
    pool, however many of the day's polygons cover it: the result is
    the pool with entries left out, so it is no longer than the pool
    and has no repetition when the pool has none. *)
Theorem calc_viewable_sites_once_per_occurrence {E : External}
    (site_pool : list site) (w : World) :
  length (sat_date (self w)) = length (orbit_path (self w)) ->
  exists viewable,
    outcome (calc_viewable_sites site_pool) w = Ok viewable /\
    subseq viewable site_pool /\
    (length viewable <= length site_pool)%nat /\
    (NoDup site_pool -> NoDup viewable).
Proof.
  intros Hlen. exists (viewable_today w site_pool).
  unfold outcome. rewrite (calc_viewable_sites_parallel _ w Hlen). cbn [fst].
  unfold viewable_today. repeat split.
  - apply filter_subseq.
  - apply subseq_length, filter_subseq.
  - apply NoDup_filter.
Qed.

Lemma calc_viewable_sites_once_per_occurrence_witness :
  exists viewable,
    outcome (calc_viewable_sites [Scenario.site_B; Scenario.site_A])
            (Scenario.the_world 0 true 738000) = Ok viewable /\
    subseq viewable [Scenario.site_B; Scenario.site_A] /\
    (length viewable <= 2)%nat /\
    (NoDup [Scenario.site_B; Scenario.site_A] -> NoDup viewable).
Proof.
  apply (calc_viewable_sites_once_per_occurrence
           [Scenario.site_B; Scenario.site_A] (Scenario.the_world 0 true 738000)).
  reflexivity.
Defined.

(** X15. Visibility is decided by the calendar date alone: two worlds
    with the same schedule object and the same date give the same
    result, whatever their time of day, time step, weather axes and
    random state are. *)
Theorem calc_viewable_sites_depends_on_date_only {E : External}
    (site_pool : list site) (w1 w2 : World) :
  self w1 = self w2 ->
  date (current_date (t (state w1))) = date (current_date (t (state w2))) ->
  outcome (calc_viewable_sites site_pool) w1 =
  outcome (calc_viewable_sites site_pool) w2.
Proof.
  intros Hself Hdate. unfold outcome.
  rewrite !calc_viewable_sites_run, Hself, Hdate. reflexivity.
Qed.

Lemma calc_viewable_sites_depends_on_date_only_witness :
  outcome (calc_viewable_sites [Scenario.site_A])
          (set_current_date (mkDatetime 738000 17 45 0 0)
             (late_world 0 true)) =
  outcome (calc_viewable_sites [Scenario.site_A]) (Scenario.the_world 0 true 738000).
Proof.
  apply (calc_viewable_sites_depends_on_date_only [Scenario.site_A]); reflexivity.
Defined.

(** X16. When [sat_date] is not empty and differs in length from
    [orbit_path], the mask [path[sat_date == date]] fails:
    [calc_viewable_sites] raises [IndexError] for every pool, the empty
    one too, and so does [start_day], after it has put the clock at
    hour 1. When [sat_date] is empty the mask selects nothing, whatever
    [orbit_path] holds, and [calc_viewable_sites] returns the empty
    list. *)
Theorem calc_viewable_sites_unequal_table {E : External}
    (site_pool : list site) (w : World) :
  (sat_date (self w) <> [] ->
   length (sat_date (self w)) <> length (orbit_path (self w)) ->
   calc_viewable_sites site_pool w = (Raise boolean_index_mismatch, w) /\
   start_day site_pool w = (Raise boolean_index_mismatch, day_started w)) /\
  (sat_date (self w) = [] ->
   calc_viewable_sites site_pool w = (Ok [], w)).
Proof.
  split.
  - intros Hdates Hne.
    assert (Hc : calc_viewable_sites site_pool w = (Raise boolean_index_mismatch, w)).
    { rewrite calc_viewable_sites_run. unfold getitem_mask. rewrite length_map.
      destruct (Nat.eqb_spec (length (sat_date (self w))) 0) as [Hz|_].
      - apply length_zero_iff_nil in Hz. contradiction.
      - destruct (Nat.eqb_spec (length (orbit_path (self w)))
                    (length (sat_date (self w)))) as [Heq|_];
          [congruence|reflexivity]. }
    split; [exact Hc|].
    rewrite start_day_run. unfold outcome. rewrite Hc. reflexivity.
  - intros Hempty. rewrite calc_viewable_sites_run, Hempty.
    cbn [map]. unfold getitem_mask. cbn [length Nat.eqb].
    rewrite viewable_loop_filter. cbn [app].
    f_equal. f_equal. induction site_pool as [|s rest IH]; [reflexivity|exact IH].
Qed.

Lemma calc_viewable_sites_unequal_table_witness :
  start_day [] unequal_world = (Raise boolean_index_mismatch, day_started unequal_world) /\
  calc_viewable_sites [Scenario.site_A] dateless_world = (Ok [], dateless_world).
Proof.
  split.
  - apply (proj1 (calc_viewable_sites_unequal_table [] unequal_world)).
    + discriminate.
    + cbn. discriminate.
  - apply (proj2 (calc_viewable_sites_unequal_table [Scenario.site_A] dateless_world)).
    reflexivity.
Defined.

(* ------------------------------------------------------------------ *)
(** ** Further properties: the weather gate *)

(** X17. When the cloud grid has no cell at the time step and the
    buckets of the site, [assess_weather] raises the lookup's
    exception before it touches the random state: the world is left as
    it was. *)
Theorem assess_weather_raises_before_drawing {E : External}
    (s : site) (w : World) (e : exception) :
  cloud_lookup w s = Raise e ->
  assess_weather s w = (Raise e, w).
Proof.
  intros H. rewrite assess_weather_run, H. reflexivity.
Qed.

Lemma assess_weather_raises_before_drawing_witness :
  assess_weather Scenario.site_A (late_world 0 true)
  = (Raise index_out_of_bounds, late_world 0 true).
Proof.
  apply (assess_weather_raises_before_drawing Scenario.site_A (late_world 0 true)).
  reflexivity.
Defined.

(** X18. The daylight signal is the test "sunrise <= hour <= sunset" on
    the hours [quick_cal_daylight] gives for the current date and the
    reduced coordinates, both ends included; it does not depend on the
    random state or on the cloud cell. *)
Theorem assess_weather_daylight_inclusive {E : External}
    (s : site) (w : World) (cell sr ss : Q) :
  cloud_lookup w s = Ok cell ->
  quick_cal_daylight (current_date (t (state w)))
    (float16 (lat s)) (float16 (lon s)) = (sr, ss) ->
  exists sat_daylight sat_cc,
    outcome (assess_weather s) w = Ok (sat_daylight, sat_cc) /\
    (sat_daylight = true <->
     (sr <= inject_Z (hour (current_date (t (state w)))))%Q /\
     (inject_Z (hour (current_date (t (state w)))) <= ss)%Q).
Proof.
  intros Hcell Hq.
  exists (daylight w s), (cloud_entry (percent cell) (np_random w) =? 0).
  split.
  - unfold outcome. rewrite assess_weather_run, Hcell. reflexivity.
  - unfold daylight. rewrite Hq.
    rewrite andb_true_iff, !Qle_bool_iff. reflexivity.
Qed.

(** At hour 4 with the sun up from hour 0 to hour 4, it is still day. *)
Lemma assess_weather_daylight_inclusive_witness :
  exists sat_cc,
    outcome (assess_weather polar_site)
            (set_current_date (mkDatetime 738000 4 0 0 0) (polar_world 0 true))
    = Ok (true, sat_cc).
Proof.
  destruct (assess_weather_daylight_inclusive polar_site
              (set_current_date (mkDatetime 738000 4 0 0 0) (polar_world 0 true))
              0%Q (0 # 1) (4 # 1) eq_refl eq_refl)
    as (dl & cc & Ho & Hiff).
  exists cc. rewrite Ho.
  assert (Hdl : dl = true).
  { apply Hiff. cbn. split; discriminate. }
  now rewrite Hdl.
Defined.

(** X19. A cell of 1 or more whose product with 100 is a finite float
    makes [arr[:CC] = 1] fill the whole indicator array:
    [assess_weather] reports the site as obscured for every random
    state. (When the product is infinite [round] raises and there is no
    cell to speak of: [cloud_lookup] is the exception.) *)
Theorem assess_weather_cell_above_one {E : External} (s : site) (w : World) (cell : Q) :
  cloud_lookup w s = Ok cell ->
  (1 <= cell)%Q ->
  outcome (assess_weather s) w = Ok (daylight w s, false).
Proof.
  intros Hcell H1. unfold outcome. rewrite assess_weather_run, Hcell. cbn [fst].
  assert (HCC : 100 <= percent cell)
    by (apply (cloud_percent_above cell _ H1), (cloud_lookup_percent w s), Hcell).
  pose proof (cloud_entry_In (percent cell) (np_random w)) as Hin.
  unfold zeros_with_ones in Hin.
  assert (Hstop : slice_stop 100 (percent cell) = 100%nat).
  { unfold slice_stop. destruct (_ <? 0) eqn:Hneg; lia. }
  rewrite Hstop in Hin.
  change (repeat 0 (100 - 100)) with (@nil Z) in Hin. rewrite app_nil_r in Hin.
  apply repeat_spec in Hin. rewrite Hin. reflexivity.
Qed.

Lemma assess_weather_cell_above_one_witness :
  outcome (assess_weather Scenario.site_A) (Scenario.the_world (3 # 2) true 738000)
  = Ok (false, false).
Proof.
  apply (assess_weather_cell_above_one Scenario.site_A
           (Scenario.the_world (3 # 2) true 738000) (3 # 2)).
  - vm_compute. reflexivity.
  - discriminate.
Defined.

(** X20. A cell of -1 or less whose product with 100 is a finite float
    leaves the indicator array all zeros (the slice [arr[:CC]] with
    [CC <= -100] is empty): [assess_weather] reports the site as not
    obscured for every random state. *)
Theorem assess_weather_cell_below_minus_one {E : External}
    (s : site) (w : World) (cell : Q) :
  cloud_lookup w s = Ok cell ->
  (cell <= -1)%Q ->
  outcome (assess_weather s) w = Ok (daylight w s, true).
Proof.
  intros Hcell H1. unfold outcome. rewrite assess_weather_run, Hcell. cbn [fst].
  assert (HCC : percent cell <= -100)
    by (apply (cloud_percent_below cell _ H1), (cloud_lookup_percent w s), Hcell).
  pose proof (cloud_entry_In (percent cell) (np_random w)) as Hin.
  unfold zeros_with_ones in Hin.
  assert (Hstop : slice_stop 100 (percent cell) = 0%nat).
  { unfold slice_stop. destruct (_ <? 0) eqn:Hneg; lia. }
  rewrite Hstop in Hin. cbn [repeat app] in Hin.
  apply repeat_spec in Hin. rewrite Hin. reflexivity.
Qed.

Lemma assess_weather_cell_below_minus_one_witness :
  outcome (assess_weather Scenario.site_A) (Scenario.the_world (-3 # 2) true 738000)
  = Ok (false, true).
Proof.
  apply (assess_weather_cell_below_minus_one Scenario.site_A
           (Scenario.the_world (-3 # 2) true 738000) (-3 # 2)).
  - vm_compute. reflexivity.
  - discriminate.
Defined.

(** X21. A negative cell is not treated as clear sky: when the
    percentage [CC] the code computes, [round(cell * 100)] in floating
    point, is between -100 and -1, the slice [arr[:CC]] counts from the
    end and sets the first [100 + CC] entries, so the probability of
    obstruction is [(100 + CC) / 100]. *)
Theorem cloud_obstruction_probability_negative_cell {E : External}
    (s : site) (w : World) (fraction : Q) (CC : Z) (dist : list (Q * RandomState)) :
  cloud_lookup w s = Ok fraction ->
  round_float (float_mul fraction 100) = Ok CC ->
  -100 <= CC < 0 ->
  (total_weight dist == 1)%Q ->
  (marginal_obstruction_probability s w dist == inject_Z (100 + CC) / 100)%Q.
Proof.
  intros Hcell HCC Hr Hdist.
  unfold marginal_obstruction_probability.
  rewrite (expectation_constant dist _ ((100 + CC) # 100)).
  - rewrite Hdist. rewrite (Qmake_Qdiv (100 + CC) 100).
    rewrite Qmult_1_l. reflexivity.
  - intros rs. rewrite (obstruction_probability_ones s w fraction rs Hcell).
    rewrite (percent_of_ok fraction CC HCC).
    assert (Hstop : Z.of_nat (slice_stop 100 CC) = 100 + CC).
    { unfold slice_stop. destruct (_ <? 0) eqn:Hneg; lia. }
    rewrite Hstop. reflexivity.
Qed.

(** The cell is the double written -0.155: times 100 it is the double
    -15.5, which rounds to -16, and 84 entries are set. *)
Lemma cloud_obstruction_probability_negative_cell_witness :
  (marginal_obstruction_probability Scenario.site_A
     (Scenario.the_world (-5584463537939415 # 36028797018963968) true 738000)
     [(1 # 3, Scenario.rng); (2 # 3, advance Scenario.rng 7)]
   == inject_Z (100 + -16) / 100)%Q.
Proof.
  apply (cloud_obstruction_probability_negative_cell Scenario.site_A
           (Scenario.the_world (-5584463537939415 # 36028797018963968) true 738000)
           (-5584463537939415 # 36028797018963968) (-16)).
  - vm_compute. reflexivity.
  - vm_compute. reflexivity.
  - lia.
  - reflexivity.
Defined.

(* ------------------------------------------------------------------ *)
(** ** Further properties: the catalog and the construction *)

Lemma find_label_first (sat_ : string) (before rest : list string) :
  forall i, ~ In sat_ before ->
            find_label (before ++ sat_ :: rest) sat_ i = (i + length before)%nat.
Proof.
  induction before as [|x before IH]; intros i Hnot; cbn [app find_label length].
  - rewrite String.eqb_refl. lia.
  - destruct (String.eqb_spec x sat_) as [Heq|Hne].
    + exfalso. apply Hnot. now left.
    + rewrite IH; [lia|]. intros Hin. apply Hnot. now right.
Qed.

Lemma get_orbit_predictor_run {E : External} (fs : FileSystem)
    (input_dir tlefile_ sat_ : string) (TLEs : list string) :
  catalog_lines fs input_dir tlefile_ = Some TLEs ->
  get_orbit_predictor fs input_dir tlefile_ sat_ =
  match getitem TLEs (find_label TLEs sat_ 0 + 1) with
  | Raise e => Raise e
  | Ok line1 =>
      match getitem TLEs (find_label TLEs sat_ 0 + 2) with
      | Raise e => Raise e
      | Ok line2 => get_predictor_from_tle_lines line1 line2
      end
  end.
Proof.
  unfold catalog_lines, get_orbit_predictor.
  destruct (text_file fs _) as [f|]; [|discriminate].
  cbn [option_map]. intros H. injection H as <-. reflexivity.
Qed.

(** X22. When the stripped catalog has the identifier, the two lines
    after its first occurrence, stripped of trailing white space, are
    what the predictor is built from; later occurrences of the
    identifier and the rest of the file play no part. *)
Theorem get_orbit_predictor_uses_first_match {E : External} (fs : FileSystem)
    (input_dir tlefile_ sat_ line1 line2 : string) (before rest : list string) :
  catalog_lines fs input_dir tlefile_ = Some (before ++ sat_ :: line1 :: line2 :: rest) ->
  ~ In sat_ before ->
  get_orbit_predictor fs input_dir tlefile_ sat_ =
  get_predictor_from_tle_lines line1 line2.
Proof.
  intros Hcat Hnot.
  rewrite (get_orbit_predictor_run fs input_dir tlefile_ sat_ _ Hcat).
  rewrite (find_label_first sat_ before _ 0%nat Hnot). cbn [Nat.add].
  unfold getitem.
  rewrite !nth_error_app2 by lia.
  replace (length before + 1 - length before)%nat with 1%nat by lia.
  replace (length before + 2 - length before)%nat with 2%nat by lia.
  reflexivity.
Qed.

Lemma get_orbit_predictor_uses_first_match_witness :
  get_orbit_predictor (E := Scenario.external) (Scenario.files 0)
    "inputs" "tle.txt" "GHGSAT-D"
  = Ok ("1 41602U 16040D"%string, "2 41602  97.2"%string).
Proof.
  apply (get_orbit_predictor_uses_first_match (E := Scenario.external)
           (Scenario.files 0) "inputs" "tle.txt" "GHGSAT-D"
           "1 41602U 16040D" "2 41602  97.2" [] []).
  - reflexivity.
  - intros [].
Defined.

(** X23. When fewer than two lines follow the first occurrence of the
    identifier, the read of the element lines runs past the end of the
    list and [get_orbit_predictor] raises [IndexError]; no predictor is
    built from a single element line. *)
Theorem get_orbit_predictor_truncated_catalog {E : External} (fs : FileSystem)
    (input_dir tlefile_ sat_ : string) (before following : list string) :
  catalog_lines fs input_dir tlefile_ = Some (before ++ sat_ :: following) ->
  ~ In sat_ before ->
  (length following < 2)%nat ->
  get_orbit_predictor fs input_dir tlefile_ sat_ = Raise list_index_out_of_range.
Proof.
  intros Hcat Hnot Hshort.
  rewrite (get_orbit_predictor_run fs input_dir tlefile_ sat_ _ Hcat).
  rewrite (find_label_first sat_ before _ 0%nat Hnot). cbn [Nat.add].
  destruct following as [|line1 [|line2 rest]]; cbn [length] in Hshort; [| |lia].
  - rewrite getitem_past_the_end; [reflexivity|].
    rewrite length_app. cbn [length]. lia.
  - unfold getitem at 1. rewrite nth_error_app2 by lia.
    replace (length before + 1 - length before)%nat with 1%nat by lia.
    cbn [nth_error].
    rewrite getitem_past_the_end; [reflexivity|].
    rewrite length_app. cbn [length]. lia.
Qed.

Lemma get_orbit_predictor_truncated_catalog_witness :
  get_orbit_predictor (E := Scenario.external) (Scenario.files 0)
    "inputs" "short.txt" "GHGSAT-D"
  = Raise list_index_out_of_range.
Proof.
  apply (get_orbit_predictor_truncated_catalog (E := Scenario.external)
           (Scenario.files 0) "inputs" "short.txt" "GHGSAT-D"
           [] ["1 41602U 16040D"%string]).
  - reflexivity.
  - intros [].
  - cbn. lia.
Defined.

Lemma rstrip_idempotent (s : string) : rstrip (rstrip s) = rstrip s.
Proof.
  induction s as [|c s IH]; [reflexivity|].
  cbn [rstrip]. destruct (rstrip s) as [|c' r] eqn:Hr.
  - destruct (is_whitespace c) eqn:Hc; [reflexivity|].
    cbn [rstrip]. now rewrite Hc.
  - cbn [rstrip] in *. rewrite IH. reflexivity.
Qed.

(** X24. The lines of the catalog are compared after [rstrip], the
    configured identifier as it is: an identifier that ends in white
    space (a trailing blank or newline) equals no line, and
    [get_orbit_predictor] raises [IndexError] whatever the catalog
    holds. *)
Theorem get_orbit_predictor_label_with_trailing_space {E : External}
    (fs : FileSystem) (input_dir tlefile_ sat_ : string) (TLEs : list string) :
  catalog_lines fs input_dir tlefile_ = Some TLEs ->
  rstrip sat_ <> sat_ ->
  get_orbit_predictor fs input_dir tlefile_ sat_ = Raise list_index_out_of_range.
Proof.
  intros Hcat Hsp.
  assert (Hnot : ~ In sat_ TLEs).
  { unfold catalog_lines in Hcat.
    destruct (text_file fs _) as [f|]; [|discriminate Hcat].
    cbn [option_map] in Hcat. injection Hcat as <-.
    intros Hin. apply in_map_iff in Hin. destruct Hin as (l & Hl & _).
    apply Hsp. rewrite <- Hl. apply rstrip_idempotent. }
  rewrite (get_orbit_predictor_run fs input_dir tlefile_ sat_ _ Hcat).
  rewrite (find_label_absent _ _ 0%nat Hnot).
  rewrite getitem_past_the_end by lia. reflexivity.
Qed.

Lemma get_orbit_predictor_label_with_trailing_space_witness :
  get_orbit_predictor (E := Scenario.external) (Scenario.files 0)
    "inputs" "tle.txt" "GHGSAT-D "
  = Raise list_index_out_of_range.
Proof.
  apply (get_orbit_predictor_label_with_trailing_space (E := Scenario.external)
           (Scenario.files 0) "inputs" "tle.txt" "GHGSAT-D "
           (map rstrip Scenario.catalog)).
  - reflexivity.
  - discriminate.
Defined.

(** X25. A schedule [__init__] returns was built from the [tcc]
    variable of the weather file, the predictor of the catalog entry,
    and the orbit path computed once for the simulation's start and end
    dates at an interval of 15; its dates are the dates of the path's
    times, its working window is 24 hours from hour 0 to hour 23, and
    [worked_today] is not set. *)
Theorem init_builds_schedule {E : External}
    (fs : FileSystem) (id : nat) (lat_ lon_ : coord) (st : SimState)
    (config_ : Config) (parameters_ : Parameters) (deployment_days_ : opaque)
    (s : Schedule) :
  init fs id lat_ lon_ st config_ parameters_ deployment_days_ = Ok s ->
  exists cloud p dts polys,
    netcdf_tcc fs (path_join (input_directory parameters_) (weather_file parameters_))
      = Some cloud /\
    get_orbit_predictor fs (input_directory parameters_) (TLE_file config_)
      (TLE_label config_) = Ok p /\
    init_orbit_poly p (start_date (t st)) (end_date (t st)) 15 = Ok (dts, polys) /\
    s = mkSchedule parameters_ config_ deployment_days_ lat_ lon_ 24 0 23 None
          cloud (TLE_label config_) (TLE_file config_) p
          dts (map date dts) polys None.
Proof.
  unfold init, get_orbit_path. cbv zeta. intros H.
  destruct (netcdf_tcc fs _) as [cloud|] eqn:Hcloud; [|discriminate H].
  destruct (get_orbit_predictor _ _ _ _) as [p|e] eqn:Hp; [|discriminate H].
  destruct (init_orbit_poly _ _ _ _) as [[dts polys]|e] eqn:Hpath; [|discriminate H].
  injection H as <-. exists cloud, p, dts, polys.
  split; [reflexivity|]. split; [reflexivity|]. split; [exact Hpath|reflexivity].
Qed.

Lemma init_builds_schedule_witness :
  exists cloud (p : @predictor Scenario.external) dts
         (polys : list (@polygon Scenario.external)),
    netcdf_tcc (Scenario.files (3 # 10)) (path_join "inputs" "era5.nc") = Some cloud /\
    get_orbit_predictor (E := Scenario.external) (Scenario.files (3 # 10))
      "inputs" "tle.txt" "GHGSAT-D" = Ok p /\
    @init_orbit_poly Scenario.external p (Scenario.day 738000)
      (Scenario.day 738001) 15 = Ok (dts, polys) /\
    Scenario.the_schedule (3 # 10) true =
      @mkSchedule Scenario.external (Scenario.params true) Scenario.conf ""%string 0 0 24 0 23 None
        cloud "GHGSAT-D"%string "tle.txt"%string p dts (map date dts) polys None.
Proof.
  apply (init_builds_schedule (E := Scenario.external) (Scenario.files (3 # 10))
           1%nat 0 0 (Scenario.sim_state 738000) Scenario.conf
           (Scenario.params true) ""%string (Scenario.the_schedule (3 # 10) true)).
  reflexivity.
Defined.

(** X26. [__init__] ends with the first failure it meets, in the order
    of its steps: the weather file, then the catalog and the predictor,
    then the orbit path. A missing weather file is reported whatever
    the catalog holds. *)
Theorem init_raises_first_failure {E : External}
    (fs : FileSystem) (id : nat) (lat_ lon_ : coord) (st : SimState)
    (config_ : Config) (parameters_ : Parameters) (deployment_days_ : opaque) :
  let weather_path :=
    path_join (input_directory parameters_) (weather_file parameters_) in
  let built :=
    get_orbit_predictor fs (input_directory parameters_) (TLE_file config_)
      (TLE_label config_) in
  (netcdf_tcc fs weather_path = None ->
   init fs id lat_ lon_ st config_ parameters_ deployment_days_ = Raise no_such_file) /\
  (forall cloud e,
     netcdf_tcc fs weather_path = Some cloud -> built = Raise e ->
     init fs id lat_ lon_ st config_ parameters_ deployment_days_ = Raise e) /\
  (forall cloud p e,
     netcdf_tcc fs weather_path = Some cloud -> built = Ok p ->
     init_orbit_poly p (start_date (t st)) (end_date (t st)) 15 = Raise e ->
     init fs id lat_ lon_ st config_ parameters_ deployment_days_ = Raise e).
Proof.
  intros weather_path built. subst weather_path built. unfold init. repeat split.
  - intros ->. reflexivity.
  - intros cloud e -> ->. reflexivity.
  - intros cloud p e -> -> Hpath. unfold get_orbit_path. rewrite Hpath. reflexivity.
Qed.

(** No weather file and an unknown identifier: the file is what is reported. *)
Lemma init_raises_first_failure_witness :
  init (E := Scenario.external) (Scenario.files 0) 1 0 0 (Scenario.sim_state 738000)
       (mkConfig "SENTINEL-5P" "tle.txt") (mkParameters "inputs" "none.nc" true)
       ""%string
  = Raise no_such_file.
Proof.
  apply (proj1 (init_raises_first_failure (E := Scenario.external)
                  (Scenario.files 0) 1%nat 0 0 (Scenario.sim_state 738000)
                  (mkConfig "SENTINEL-5P" "tle.txt")
                  (mkParameters "inputs" "none.nc" true) ""%string)).
  reflexivity.
Defined.

(** X27. When [init_orbit_poly] returns as many polygons as times, the
    schedule [__init__] builds has a ground track table of parallel
    arrays, and on it [calc_viewable_sites] returns, on any day, for any
    pool, the sites today's polygons cover: it does not raise. *)
Theorem init_then_calc_viewable_sites {E : External}
    (fs : FileSystem) (id : nat) (lat_ lon_ : coord) (st : SimState)
    (config_ : Config) (parameters_ : Parameters) (deployment_days_ : opaque)
    (s : Schedule) :
  (forall p T1 T2 k dts polys,
     init_orbit_poly p T1 T2 k = Ok (dts, polys) -> length dts = length polys) ->
  init fs id lat_ lon_ st config_ parameters_ deployment_days_ = Ok s ->
  length (sat_date s) = length (orbit_path s) /\
  length (sat_date s) = length (sat_datetime s) /\
  forall (st' : SimState) (rs : RandomState) (site_pool : list site),
    calc_viewable_sites site_pool (mkWorld s st' rs) =
    (Ok (viewable_today (mkWorld s st' rs) site_pool), mkWorld s st' rs).
Proof.
  intros Hpar Hinit.
  destruct (init_builds_schedule fs id lat_ lon_ st config_ parameters_
              deployment_days_ s Hinit) as (cloud & p & dts & polys & _ & _ & Hp & ->).
  assert (Hlen : length (map date dts) = length polys)
    by (rewrite length_map; exact (Hpar _ _ _ _ _ _ Hp)).
  cbn [sat_date orbit_path sat_datetime].
  split; [exact Hlen|]. split; [apply length_map|].
  intros st' rs site_pool. apply calc_viewable_sites_parallel. exact Hlen.
Qed.

Lemma init_then_calc_viewable_sites_witness :
  calc_viewable_sites [Scenario.site_B; Scenario.site_A]
    (mkWorld (Scenario.the_schedule 0 true) (Scenario.sim_state 738001) Scenario.rng)
  = (Ok [Scenario.site_A],
     mkWorld (Scenario.the_schedule 0 true) (Scenario.sim_state 738001) Scenario.rng).
Proof.
  refine (proj2 (proj2 (init_then_calc_viewable_sites (E := Scenario.external)
            (Scenario.files 0) 1%nat 0 0 (Scenario.sim_state 738000) Scenario.conf
            (Scenario.params true) ""%string (Scenario.the_schedule 0 true) _ eq_refl))
            (Scenario.sim_state 738001) Scenario.rng
            [Scenario.site_B; Scenario.site_A]).
  intros p T1 T2 k dts polys H. injection H as <- <-. reflexivity.
Defined.
